(** * To-Do list web application: a model of [script.js] and its properties

    The development embeds the [TodoApp] class of [TO DO WEB APP/script.js]
    in Rocq.  The application state, the part of the page the methods read
    back, [localStorage] and the pending [setTimeout] callbacks are fields
    of one record that every method transforms.

    Conventions of the model.
    - A JavaScript string is a [string]: a sequence of code units, here the
      code units U+0000 to U+00FF.  [length] is the [.length] of the source.
    - A JavaScript number that the program uses as an integer (task ids and
      the id counter) is a [Z]; doubles are exact on integers of magnitude
      up to 2^53, and the model does not go beyond integers.
    - [new Date().toISOString()] is an input of the method that reads the
      clock (the argument [now]).
    - What a method only writes to the page (classes, counters, the
      placeholder of the empty list, the theme) is left out; the theme
      appears only where reading it can throw. *)

From Stdlib Require Import ZArith List Bool String Ascii Lia.
From Stdlib Require Import DecimalString DecimalPos DecimalN DecimalZ.
Import ListNotations.

Local Open Scope Z_scope.
Local Open Scope string_scope.
Local Open Scope list_scope.

(** ** JavaScript strings *)

Module JsString.

(** Code unit of a character. *)
Definition code (c : ascii) : N := N_of_ascii c.

(** WhiteSpace and LineTerminator code units below U+0100: TAB, LF, VT,
    FF, CR, SPACE and NO-BREAK SPACE.  These are what [trim] strips and
    what [parseInt] skips. *)
Definition is_whitespace (c : ascii) : bool :=
  existsb (N.eqb (code c)) [9; 10; 11; 12; 13; 32; 160]%N.

Fixpoint trimStart (s : string) : string :=
  match s with
  | EmptyString => EmptyString
  | String c s' => if is_whitespace c then trimStart s' else s
  end.

Fixpoint trimEnd (s : string) : string :=
  match s with
  | EmptyString => EmptyString
  | String c s' =>
      match trimEnd s' with
      | EmptyString => if is_whitespace c then EmptyString else String c EmptyString
      | r => String c r
      end
  end.

(** [String.prototype.trim]. *)
Definition trim (s : string) : string := trimEnd (trimStart s).

(** Truthiness of a string: every string but the empty one. *)
Definition truthy (s : string) : bool :=
  match s with EmptyString => false | _ => true end.

(** [String.prototype.toLowerCase] on one code unit below U+0100: the
    letters A-Z and the letters U+00C0-U+00DE, the multiplication sign
    U+00D7 excepted, move up by 32. *)
Definition lower_char (c : ascii) : ascii :=
  let n := code c in
  if ((65 <=? n) && (n <=? 90) ||
      (192 <=? n) && (n <=? 222) && negb (n =? 215))%N
  then ascii_of_N (n + 32) else c.

Fixpoint toLowerCase (s : string) : string :=
  match s with
  | EmptyString => EmptyString
  | String c s' => String (lower_char c) (toLowerCase s')
  end.

(** [s.startsWith(t)]. *)
Fixpoint startsWith (s t : string) {struct t} : bool :=
  match t, s with
  | EmptyString, _ => true
  | String _ _, EmptyString => false
  | String b t', String a s' => Ascii.eqb a b && startsWith s' t'
  end.

(** [s.includes(t)]: [t] occurs in [s] at some position. *)
Fixpoint includes (s t : string) : bool :=
  startsWith s t ||
  match s with
  | EmptyString => false
  | String _ s' => includes s' t
  end.

End JsString.
Import JsString.

(** ** JavaScript numbers used as integers *)

Module JsNumber.

(** [Number.prototype.toString] on an integer: decimal digits, with a
    leading minus sign for a negative number.  This is what the source
    prints for the integers below 10^21 in magnitude; from there on a
    double prints in exponent notation, and from 2^53 on it no longer
    counts in steps of one.  Statements that depend on the digits or on
    counting name the range ([safe_integer] further down). *)
Definition toString (z : Z) : string := NilZero.string_of_int (Z.to_int z).

(** Value of a digit in the given radix, if the code unit is one. *)
Definition digit_of (radix : Z) (c : ascii) : option Z :=
  let n := Z.of_N (code c) in
  let v := (if (48 <=? n) && (n <=? 57) then n - 48
            else if (97 <=? n) && (n <=? 122) then n - 87
            else if (65 <=? n) && (n <=? 90) then n - 55
            else radix)%Z in
  if (v <? radix)%Z then Some v else None.

(** The longest prefix of digits, read in the radix; [acc] is [None]
    until a first digit has been read. *)
Fixpoint parse_digits (radix : Z) (acc : option Z) (s : string) : option Z :=
  match s with
  | EmptyString => acc
  | String c s' =>
      match digit_of radix c with
      | Some d =>
          parse_digits radix
            (Some (match acc with Some a => a * radix + d | None => d end)) s'
      | None => acc
      end
  end.

(** After the sign: a [0x] or [0X] prefix selects radix 16. *)
Definition parse_unsigned (s : string) : option Z :=
  match s with
  | String "0" (String "x" s') | String "0" (String "X" s') =>
      parse_digits 16 None s'
  | _ => parse_digits 10 None s
  end.

(** [parseInt(s)] with no radix argument; [None] is [NaN]. *)
Definition parseInt (s : string) : option Z :=
  match trimStart s with
  | String "-" s' => option_map Z.opp (parse_unsigned s')
  | String "+" s' => parse_unsigned s'
  | s' => parse_unsigned s'
  end.

End JsNumber.
Import JsNumber.

(** ** Data model *)

(** A task object, as [addTask] builds it (lines 92-98). *)
Record Task := mkTask {
  id : Z;
  text : string;
  completed : bool;
  createdAt : string;
  completedAt : option string   (* [None] is [null] *)
}.

(** The text stored under the key [todoApp_tasks].  The program only hands
    that text to [JSON.parse], a built-in of the host, so a text is
    represented by what [JSON.parse] makes of it. *)
Inductive json_text :=
| TaskArrayText (ts : list Task)  (* parses to an array of task objects *)
| OtherValueText                  (* parses to any other value *)
| MalformedText                   (* [JSON.parse] throws a SyntaxError *)
| EmptyText.                      (* the empty string *)

Definition JSON_stringify (ts : list Task) : json_text := TaskArrayText ts.

Inductive parse_result :=
| ParsedTasks (ts : list Task)
| ParsedOther
| SyntaxError.

Definition JSON_parse (s : json_text) : parse_result :=
  match s with
  | TaskArrayText ts => ParsedTasks ts
  | OtherValueText => ParsedOther
  | MalformedText | EmptyText => SyntaxError
  end.

Definition json_truthy (s : json_text) : bool :=
  match s with EmptyText => false | _ => true end.

(** How the browser answers an access to [localStorage]. *)
Inductive storage_status :=
| Available       (* reads and writes succeed *)
| QuotaExceeded   (* [getItem] succeeds, [setItem] throws *)
| AccessDenied.   (* every access throws *)

Record Storage := mkStorage {
  todoApp_tasks : option json_text;
  todoApp_taskIdCounter : option string;
  status : storage_status
}.

(** The fields of [TodoApp] set by the constructor (lines 9-12) together
    with what the methods read or write outside the object: the value of
    the input box, the [data-task-id] of the [li] elements of the task
    list, the notifications shown so far (message and type, oldest first),
    [localStorage], and the task ids captured by the pending [setTimeout]
    callbacks of [deleteTask] (oldest first). *)
Record World := mkWorld {
  tasks : list Task;
  currentFilter : string;
  currentSearchTerm : string;
  taskIdCounter : Z;
  taskInput_value : string;
  taskList : list Z;
  notifications : list (string * string);
  localStorage : Storage;
  timers : list Z
}.

Definition set_tasks (ts : list Task) (w : World) : World :=
  mkWorld ts (currentFilter w) (currentSearchTerm w) (taskIdCounter w)
    (taskInput_value w) (taskList w) (notifications w) (localStorage w) (timers w).

Definition set_currentFilter (f : string) (w : World) : World :=
  mkWorld (tasks w) f (currentSearchTerm w) (taskIdCounter w)
    (taskInput_value w) (taskList w) (notifications w) (localStorage w) (timers w).

Definition set_currentSearchTerm (t : string) (w : World) : World :=
  mkWorld (tasks w) (currentFilter w) t (taskIdCounter w)
    (taskInput_value w) (taskList w) (notifications w) (localStorage w) (timers w).

Definition set_taskIdCounter (n : Z) (w : World) : World :=
  mkWorld (tasks w) (currentFilter w) (currentSearchTerm w) n
    (taskInput_value w) (taskList w) (notifications w) (localStorage w) (timers w).

Definition set_taskInput_value (v : string) (w : World) : World :=
  mkWorld (tasks w) (currentFilter w) (currentSearchTerm w) (taskIdCounter w)
    v (taskList w) (notifications w) (localStorage w) (timers w).

Definition set_taskList (l : list Z) (w : World) : World :=
  mkWorld (tasks w) (currentFilter w) (currentSearchTerm w) (taskIdCounter w)
    (taskInput_value w) l (notifications w) (localStorage w) (timers w).

Definition set_notifications (l : list (string * string)) (w : World) : World :=
  mkWorld (tasks w) (currentFilter w) (currentSearchTerm w) (taskIdCounter w)
    (taskInput_value w) (taskList w) l (localStorage w) (timers w).

Definition set_localStorage (st : Storage) (w : World) : World :=
  mkWorld (tasks w) (currentFilter w) (currentSearchTerm w) (taskIdCounter w)
    (taskInput_value w) (taskList w) (notifications w) st (timers w).

Definition set_timers (l : list Z) (w : World) : World :=
  mkWorld (tasks w) (currentFilter w) (currentSearchTerm w) (taskIdCounter w)
    (taskInput_value w) (taskList w) (notifications w) (localStorage w) l.

(** What a call hands back: the value of a [return] (every [return] of the
    source is bare, and a method that runs off its end returns
    [undefined]), or an exception that leaves the method. *)
Inductive value :=
| undefined
| object (t : Task).

Inductive completion :=
| Return (v : value)
| Throw (error : string).

(** Statements in sequence. *)
Notation "w |> f" := (f w) (at level 45, left associativity, only parsing).

(** ** Methods of [TodoApp] *)

(** [showNotification] (lines 469-517) appends a notification element; its
    own timers only take the element away again. *)
Definition showNotification (message type : string) (w : World) : World :=
  set_notifications (notifications w ++ [(message, type)]) w.

(** [saveTasksToStorage] (lines 433-441).  The two [setItem] calls of
    lines 435-436 are one write here: a storage that refuses refuses the
    first call, so that nothing is stored.  A refusal of the second call
    alone, which would leave the new tasks next to the old counter, is
    not among the behaviours of [storage_status]. *)
Definition saveTasksToStorage (w : World) : World :=
  match status (localStorage w) with
  | Available =>
      set_localStorage
        (mkStorage (Some (JSON_stringify (tasks w)))
                   (Some (toString (taskIdCounter w)))
                   Available) w
  | _ => showNotification "Failed to save tasks!" "error" w
  end.

(** [getFilteredTasks] (lines 243-261).  The method works on a copy of the
    array and assigns no field, hence no [World] in its result. *)
Definition getFilteredTasks (w : World) : list Task :=
  let filteredTasks := tasks w in
  let filteredTasks :=
    if currentFilter w =? "completed" then
      filter (fun task => completed task) filteredTasks
    else if currentFilter w =? "pending" then
      filter (fun task => negb (completed task)) filteredTasks
    else filteredTasks in
  if truthy (currentSearchTerm w) then
    filter (fun task => includes (toLowerCase (text task)) (currentSearchTerm w))
      filteredTasks
  else filteredTasks.

(** [renderTasks] (lines 266-277) rebuilds the list: one [li] per filtered
    task, carrying the task id.  [updateEmptyState] and [updateStats] only
    write the placeholder and the three counters of the page, which no
    method reads back; they leave the [World] as it is. *)
Definition renderTasks (w : World) : World :=
  set_taskList (map id (getFilteredTasks w)) w.

(** [this.tasks.find(t => t.id === taskId)]: the first task with the id. *)
Definition find_task (taskId : Z) (ts : list Task) : option Task :=
  find (fun t => id t =? taskId)%Z ts.

(** Assignment to fields of the object that [find] returned: the first
    task with the id changes in place. *)
Fixpoint update_found (taskId : Z) (f : Task -> Task) (ts : list Task) : list Task :=
  match ts with
  | [] => []
  | t :: ts' => if (id t =? taskId)%Z then f t :: ts'
                else t :: update_found taskId f ts'
  end.

(** [addTask] (lines 79-108). *)
Definition addTask (now : string) (w : World) : completion * World :=
  let text := trim (taskInput_value w) in
  if negb (truthy text) then
    (Return undefined, w |> showNotification "Please enter a task!" "warning")
  else if (200 <? Z.of_nat (length text))%Z then
    (Return undefined,
     w |> showNotification "Task is too long! Maximum 200 characters." "warning")
  else
    let task := mkTask (taskIdCounter w) text false now None in
    (Return undefined,
     w |> set_taskIdCounter (taskIdCounter w + 1)
       |> set_tasks (task :: tasks w)
       |> set_taskInput_value ""
       |> saveTasksToStorage
       |> renderTasks
       |> showNotification "Task added successfully!" "success").

(** The callback that [deleteTask] hands to [setTimeout] (lines 119-126). *)
Definition deleteTask_callback (taskId : Z) (w : World) : World :=
  w |> set_tasks (filter (fun task => negb (id task =? taskId)%Z) (tasks w))
    |> saveTasksToStorage
    |> renderTasks
    |> showNotification "Task deleted!" "success".

(** [deleteTask] (lines 113-128): when the list has an element for the id,
    the element is marked and the callback is scheduled 300 ms later. *)
Definition deleteTask (taskId : Z) (w : World) : completion * World :=
  if existsb (Z.eqb taskId) (taskList w) then
    (Return undefined, w |> set_timers (timers w ++ [taskId]))
  else (Return undefined, w).

(** The oldest pending callback runs (all delays are equal). *)
Definition run_timer (w : World) : World :=
  match timers w with
  | [] => w
  | taskId :: rest => w |> set_timers rest |> deleteTask_callback taskId
  end.

(** The two assignments to the found task (lines 137-138): [completed]
    flips, and [completedAt] is the time of the call when the task is
    now completed and [null] otherwise. *)
Definition toggle (now : string) (task : Task) : Task :=
  let c := negb (completed task) in
  mkTask (id task) (text task) c (createdAt task) (if c then Some now else None).

(** [toggleTask] (lines 133-147). *)
Definition toggleTask (taskId : Z) (now : string) (w : World) : completion * World :=
  match find_task taskId (tasks w) with
  | Some task =>
      let status := if completed (toggle now task) then "completed"
                    else "marked as pending" in
      (Return undefined,
       w |> set_tasks (update_found taskId (toggle now) (tasks w))
         |> saveTasksToStorage
         |> renderTasks
         |> showNotification ("Task " ++ status ++ "!")%string "success")
  | None => (Return undefined, w)
  end.

(** [cancelEditTask] (lines 204-221) only rewrites the inside of the list
    element; without an element for the id, [taskElement] is [null] and
    the property access on it throws. *)
Definition cancelEditTask (taskId : Z) (w : World) : completion * World :=
  if existsb (Z.eqb taskId) (taskList w) then (Return undefined, w)
  else (Throw "TypeError", w).

Definition set_text (s : string) (task : Task) : Task :=
  mkTask (id task) s (completed task) (createdAt task) (completedAt task).

(** [saveEditTask] (lines 176-199). *)
Definition saveEditTask (taskId : Z) (newText : string) (w : World)
  : completion * World :=
  let trimmedText := trim newText in
  if negb (truthy trimmedText) then
    match w |> showNotification "Task cannot be empty!" "warning"
            |> cancelEditTask taskId with
    | (Throw e, w') => (Throw e, w')
    | (Return _, w') => (Return undefined, w')
    end
  else if (200 <? Z.of_nat (length trimmedText))%Z then
    match w |> showNotification "Task is too long! Maximum 200 characters." "warning"
            |> cancelEditTask taskId with
    | (Throw e, w') => (Throw e, w')
    | (Return _, w') => (Return undefined, w')
    end
  else
    match find_task taskId (tasks w) with
    | Some task =>
        (Return undefined,
         w |> set_tasks (update_found taskId (set_text trimmedText) (tasks w))
           |> saveTasksToStorage
           |> renderTasks
           |> showNotification "Task updated!" "success")
    | None => (Return undefined, w)
    end.

(** [setFilter] (lines 226-238); the loop over the buttons only moves the
    [active] class. *)
Definition setFilter (filter : string) (w : World) : completion * World :=
  (Return undefined, w |> set_currentFilter filter |> renderTasks).

(** The [input] listener of the search box (lines 55-58). *)
Definition setSearchTerm (value : string) (w : World) : World :=
  w |> set_currentSearchTerm (toLowerCase value) |> renderTasks.

(** The [catch] block of [loadTasksFromStorage] (lines 458-463). *)
Definition load_failed (w : World) : World :=
  w |> showNotification "Failed to load saved tasks!" "error"
    |> set_tasks []
    |> set_taskIdCounter 1.

(** Lines 455-457: the saved counter, when there is one, goes through
    [parseInt]; [None] stands for a counter that has become [NaN], which
    the typed model does not cover. *)
Definition load_counter (w : World) : option World :=
  match todoApp_taskIdCounter (localStorage w) with
  | Some savedCounter =>
      if truthy savedCounter then
        option_map (fun n => set_taskIdCounter n w) (parseInt savedCounter)
      else Some w
  | None => Some w
  end.

(** [loadTasksFromStorage] (lines 446-464).  The result is [None] when the
    method returns with a state that the typed model does not cover:
    [this.tasks] is not an array of task objects, or the counter is [NaN]. *)
Definition loadTasksFromStorage (w : World) : option World :=
  match status (localStorage w) with
  | AccessDenied => Some (load_failed w)
  | _ =>
      match todoApp_tasks (localStorage w) with
      | Some savedTasks =>
          if json_truthy savedTasks then
            match JSON_parse savedTasks with
            | ParsedTasks ts => load_counter (set_tasks ts w)
            | ParsedOther => None
            | SyntaxError => Some (load_failed w)
            end
          else load_counter w
      | None => load_counter w
      end
  end.

(** [loadThemeFromStorage] (lines 421-428) reads [localStorage] outside any
    [try]: it throws when the access does, and otherwise only sets the
    theme of the page. *)
Definition loadThemeFromStorage (w : World) : completion * World :=
  match status (localStorage w) with
  | AccessDenied => (Throw "SecurityError", w)
  | _ => (Return undefined, w)
  end.

(** The constructor (lines 7-28) on a freshly loaded page: the four
    fields as lines 9-12 set them, an empty input box and an empty list. *)
Definition constructed (storage : Storage) : World :=
  mkWorld [] "all" "" 1 "" [] [] storage [].

(** [new TodoApp()]: the constructor calls [init] (lines 33-40).  [None]:
    the constructor throws, so that no listener is bound, or the loaded
    state is outside the model. *)
Definition new_TodoApp (storage : Storage) : option World :=
  match loadTasksFromStorage (constructed storage) with
  | Some w =>
      match loadThemeFromStorage w with
      | (Return _, w) => Some (renderTasks w)
      | (Throw _, _) => None
      end
  | None => None
  end.

(** ** Runs of the application *)

(** What can happen to a running page: the user types into the input box,
    asks for a task to be added, toggled, edited or deleted, picks a
    filter, types a search term; the oldest pending timer fires; the page
    is loaded again; the browser changes how it answers storage accesses. *)
Inductive event :=
| TypeInput (value : string)
| AddTask (now : string)
| ToggleTask (taskId : Z) (now : string)
| SaveEditTask (taskId : Z) (newText : string)
| DeleteTask (taskId : Z)
| TimerFires
| SetFilter (filter : string)
| Search (value : string)
| Reload
| StorageStatus (s : storage_status).

(** An exception that leaves a listener is reported on the console and
    the page keeps running with the state reached. *)
Definition step (e : event) (w : World) : option World :=
  match e with
  | TypeInput v => Some (set_taskInput_value v w)
  | AddTask now => Some (snd (addTask now w))
  | ToggleTask taskId now => Some (snd (toggleTask taskId now w))
  | SaveEditTask taskId newText => Some (snd (saveEditTask taskId newText w))
  | DeleteTask taskId => Some (snd (deleteTask taskId w))
  | TimerFires => Some (run_timer w)
  | SetFilter f => Some (snd (setFilter f w))
  | Search v => Some (setSearchTerm v w)
  | Reload => new_TodoApp (localStorage w)
  | StorageStatus s =>
      Some (set_localStorage
              (mkStorage (todoApp_tasks (localStorage w))
                         (todoApp_taskIdCounter (localStorage w)) s) w)
  end.

Fixpoint run (evs : list event) (w : World) : option World :=
  match evs with
  | [] => Some w
  | e :: evs' =>
      match step e w with
      | Some w' => run evs' w'
      | None => None
      end
  end.

(** Storage of a browser that has never run the application. *)
Definition empty_storage : Storage := mkStorage None None Available.

(** The page of a browser that has never run the application. *)
Definition fresh : World := constructed empty_storage.

(** The events of a run during which the storage keeps answering. *)
Definition storage_answers (e : event) : bool :=
  match e with
  | StorageStatus Available => true
  | StorageStatus _ => false
  | _ => true
  end.

(** ** The store as the specification words it *)












(** The integers that a double holds exactly and counts on without loss. *)
Definition safe_integer (z : Z) : Prop := - 2 ^ 53 < z < 2 ^ 53.

(** Trimming as the specification means it: white space only is cut off,
    at both ends, until neither end is white space. *)
Fixpoint all_whitespace (s : string) : bool :=
  match s with
  | EmptyString => true
  | String c s' => is_whitespace c && all_whitespace s'
  end.

Definition starts_clean (s : string) : Prop :=
  match s with
  | EmptyString => True
  | String c _ => is_whitespace c = false
  end.

Fixpoint ends_clean (s : string) : Prop :=
  match s with
  | EmptyString => True
  | String c EmptyString => is_whitespace c = false
  | String _ s' => ends_clean s'
  end.

(** Text that [add] and [edit] accept: not empty and at most 200 code
    units once trimmed. *)
Definition valid_text (s : string) : Prop :=
  trim s <> "" /\ (Z.of_nat (length (trim s)) <= 200)%Z.

(** A failure made known by the call: an exception, or a new notification
    of type warning or error. *)
Definition reports_failure (before : World) (result : completion * World) : Prop :=
  (exists e, fst result = Throw e) \/
  (exists shown msg ty,
      notifications (snd result) = notifications before ++ shown /\
      In (msg, ty) shown /\ (ty = "warning" \/ ty = "error")).

(** C2 in terms of runs: in the run that starts on a browser that never
    ran the application, goes through [evs1], adds [text1], goes through
    [evs2] and adds [text2], both tasks are created and the second one has
    the greater id. *)
Definition later_id_greater (evs1 : list event) (text1 now1 : string)
    (evs2 : list event) (text2 now2 : string) : Prop :=
  exists wa wb ta tb ra rb,
    run (evs1 ++ [TypeInput text1; AddTask now1]) fresh = Some wa /\
    tasks wa = ta :: ra /\ text ta = trim text1 /\
    run (evs2 ++ [TypeInput text2; AddTask now2]) wa = Some wb /\
    tasks wb = tb :: rb /\ text tb = trim text2 /\
    (id ta < id tb)%Z.

(** The storage holds what the last save wrote: the counter of the running
    page (no counter yet on a page that never saved, whose counter is 1),
    and a task array. *)
Definition consistent (w : World) : Prop :=
  status (localStorage w) = Available /\
  match todoApp_taskIdCounter (localStorage w) with
  | Some s => s = toString (taskIdCounter w)
  | None => taskIdCounter w = 1
  end /\
  match todoApp_tasks (localStorage w) with
  | Some s => exists ts, s = JSON_stringify ts
  | None => True
  end.

(** The page shows the filtered view. *)
Definition rendered (w : World) : Prop :=
  taskList w = map id (getFilteredTasks w).

(** The search term is stored in lower case. *)
Definition term_lowered (w : World) : Prop :=
  toLowerCase (currentSearchTerm w) = currentSearchTerm w.

(** The page shows the filtered view and the search term is in lower
    case: what the theorems on the filtered view and on unknown ids ask
    of a world. *)
Definition in_sync (w : World) : Prop := rendered w /\ term_lowered w.

(** A world with one pending task, shown on the page and saved. *)
Definition milk : Task := mkTask 1 "Buy milk" false "2024-05-01T10:00:00.000Z" None.

Definition one_task : World :=
  mkWorld [milk] "all" "" 2 "" [1] []
    (mkStorage (Some (JSON_stringify [milk])) (Some "2") Available) [].

(** ** The rest of the page *)

(** [updateStats] (lines 353-361): the three numbers that the method writes
    to the page. *)
Record Stats := mkStats {
  totalTasks : Z;
  completedTasks : Z;
  pendingTasks : Z
}.

Definition updateStats (w : World) : Stats :=
  let total := Z.of_nat (List.length (tasks w)) in
  let completed :=
    Z.of_nat (List.length (filter (fun task => completed task) (tasks w))) in
  let pending := total - completed in
  mkStats total completed pending.

(** The six icon literals that the source assigns to [textContent]: four
    in [updateEmptyState] (lines 378, 382, 386, 390) and two for the theme
    (lines 410 and 427, the same two literals on both lines).  The file
    holds them as mis-decoded text outside the code units of [string];
    each literal is one constructor, named after the picture it was meant
    to be, and only the identity of a literal matters below. *)
Inductive pictograph :=
| MagnifyingGlass
| CheckMark
| Hourglass
| Memo
| CrescentMoon
| SunWithRays.

Record EmptyState := mkEmptyState {
  emptyIcon : pictograph;
  emptyTitle : string;
  emptyText : string
}.

(** [updateEmptyState] (lines 366-397).  [None]: the class [show] is taken
    off the placeholder; [Some]: the class is put on and the three texts
    are written. *)
Definition updateEmptyState (w : World) : option EmptyState :=
  let filteredTasks := getFilteredTasks w in
  if (List.length filteredTasks =? 0)%nat then
    Some (if truthy (currentSearchTerm w) then
            mkEmptyState MagnifyingGlass "No matching tasks"
              "Try adjusting your search terms."
          else if currentFilter w =? "completed" then
            mkEmptyState CheckMark "No completed tasks"
              "Complete some tasks to see them here."
          else if currentFilter w =? "pending" then
            mkEmptyState Hourglass "No pending tasks"
              "Great job! All tasks are completed."
          else
            mkEmptyState Memo "No tasks yet"
              "Add your first task to get started!")
  else None.

(** Serialisation of a text node, which is what [innerHTML] gives back
    for the [textContent] just set: the ampersand, the no-break space and
    the two angle brackets become character references. *)
Definition escape_char (c : ascii) : string :=
  if Ascii.eqb c "&" then "&amp;"
  else if (code c =? 160)%N then "&nbsp;"
  else if Ascii.eqb c "<" then "&lt;"
  else if Ascii.eqb c ">" then "&gt;"
  else String c EmptyString.

(** [escapeHtml] (lines 522-526). *)
Fixpoint escapeHtml (text : string) : string :=
  match text with
  | EmptyString => EmptyString
  | String c text' => (escape_char c ++ escapeHtml text')%string
  end.

(** [li.dataset.taskId = task.id] (line 285): the attribute is the number
    as a string. *)
Definition data_task_id (task : Task) : string := toString (id task).

(** [startEditTask] (lines 152-171) only rewrites the inside of the list
    element; without an element for the id, [taskElement] is [null] and
    the property access on it throws. *)
Definition startEditTask (taskId : Z) (w : World) : completion * World :=
  if existsb (Z.eqb taskId) (taskList w) then (Return undefined, w)
  else (Throw "TypeError", w).

(** What [handleTaskListClick] reads from the event: the [data-task-id] of
    the closest [.task-item] ([None] when the click is outside every
    item) and the [data-action] of the target ([None] when it has none). *)
Record ClickTarget := mkClickTarget {
  task_item : option string;
  action : option string
}.

(** [handleTaskListClick] (lines 302-322).  [confirmed] is the answer to
    the [confirm] dialog, asked for [delete] only.  When [parseInt] gives
    [NaN], no task and no element has the id: [toggleTask] and
    [deleteTask] find nothing and [startEditTask] throws. *)
Definition handleTaskListClick (target : ClickTarget) (confirmed : bool)
    (now : string) (w : World) : completion * World :=
  match task_item target with
  | None => (Return undefined, w)
  | Some dataset_taskId =>
      let taskId := parseInt dataset_taskId in
      match action target with
      | Some a =>
          if a =? "toggle" then
            match taskId with
            | Some taskId => (Return undefined, snd (toggleTask taskId now w))
            | None => (Return undefined, w)
            end
          else if a =? "edit" then
            match taskId with
            | Some taskId => startEditTask taskId w
            | None => (Throw "TypeError", w)
            end
          else if a =? "delete" then
            if confirmed then
              match taskId with
              | Some taskId => (Return undefined, snd (deleteTask taskId w))
              | None => (Return undefined, w)
              end
            else (Return undefined, w)
          else (Return undefined, w)
      | None => (Return undefined, w)
      end
  end.

(** *** The theme *)

Module Theme.

(** What the theme methods read and write: the [data-theme] attribute of
    the document element ([None] when absent), the text of the theme icon,
    and the value stored under the key [todoApp_theme]. *)
Record Page := mkPage {
  data_theme : option string;
  theme_icon : pictograph;
  todoApp_theme : option string
}.

(** [x || 'light'] on a value that is a string or [null]. *)
Definition or_light (x : option string) : string :=
  match x with
  | Some s => if truthy s then s else "light"
  | None => "light"
  end.

Definition icon_of (theme : string) : pictograph :=
  if theme =? "light" then CrescentMoon else SunWithRays.

(** [toggleTheme] (lines 402-416).  The [setItem] is outside any [try]:
    when the storage refuses the write the method throws after the page
    has changed and before the notification. *)
Definition toggleTheme (p : Page) (w : World) : completion * (Page * World) :=
  let currentTheme := or_light (data_theme p) in
  let newTheme := if currentTheme =? "light" then "dark" else "light" in
  let p := mkPage (Some newTheme) (icon_of newTheme) (todoApp_theme p) in
  match status (localStorage w) with
  | Available =>
      (Return undefined,
       (mkPage (data_theme p) (theme_icon p) (Some newTheme),
        showNotification ("Switched to " ++ newTheme ++ " mode")%string "success" w))
  | QuotaExceeded => (Throw "QuotaExceededError", (p, w))
  | AccessDenied => (Throw "SecurityError", (p, w))
  end.

(** [loadThemeFromStorage] (lines 421-428), with what it writes to the
    page. *)
Definition loadThemeFromStorage (p : Page) (w : World) : completion * Page :=
  match status (localStorage w) with
  | AccessDenied => (Throw "SecurityError", p)
  | _ =>
      let savedTheme := or_light (todoApp_theme p) in
      (Return undefined, mkPage (Some savedTheme) (icon_of savedTheme) (todoApp_theme p))
  end.

End Theme.

(** The theme that [toggleTheme] finds is the light one. *)
Definition or_light_is_light (x : option string) : bool :=
  Theme.or_light x =? "light".

(** The events that leave the running page in place. *)
Definition no_reload (e : event) : bool :=
  match e with
  | Reload => false
  | _ => true
  end.

(** ** What every store should look like *)

(** A task as [addTask] and [saveEditTask] let it be: its text is trimmed,
    not empty and at most 200 code units long, and it has a completion
    time exactly when it is completed. *)
Definition task_ok (t : Task) : Prop :=
  text t <> "" /\ (Z.of_nat (length (text t)) <= 200)%Z /\
  starts_clean (text t) /\ ends_clean (text t) /\
  (completed t = true <-> completedAt t <> None).

(** Ids from 1 on, below the bound, strictly decreasing along the array. *)
Fixpoint descending_below (bound : Z) (ts : list Task) : Prop :=
  match ts with
  | [] => True
  | t :: ts' => (1 <= id t < bound)%Z /\ descending_below (id t) ts'
  end.

Definition store_ok (counter : Z) (ts : list Task) : Prop :=
  (1 <= counter)%Z /\ descending_below counter ts /\ Forall task_ok ts.

(** The storage holds nothing, or a store that is in order. *)
Definition storage_ok (st : Storage) : Prop :=
  match todoApp_tasks st, todoApp_taskIdCounter st with
  | None, None => True
  | Some s, Some c =>
      exists ts n, s = JSON_stringify ts /\ c = toString n /\ store_ok n ts
  | _, _ => False
  end.

Definition well_formed (w : World) : Prop :=
  store_ok (taskIdCounter w) (tasks w) /\ storage_ok (localStorage w).

(** The storage holds the store of the page. *)
Definition saved (w : World) : Prop :=
  localStorage w =
  mkStorage (Some (JSON_stringify (tasks w))) (Some (toString (taskIdCounter w)))
    Available.

(** * Properties *)

(** ** Strings *)

Section StringFacts.

Lemma startsWith_app (s t : string) :
  startsWith s t = true <-> exists after, s = (t ++ after)%string.
Proof.
  revert s; induction t as [|b t IH]; intros s; simpl.
  - split; [intros _; now exists s | reflexivity].
  - destruct s as [|a s].
    + split; [discriminate | intros [r Hr]; discriminate].
    + rewrite andb_true_iff, Ascii.eqb_eq, IH. split.
      * intros [-> [r ->]]. now exists r.
      * intros [r Hr]. injection Hr as -> ->. split; [reflexivity | now exists r].
Qed.

(** [includes] is the substring relation. *)
Lemma includes_spec (s t : string) :
  includes s t = true <-> exists before after, s = (before ++ t ++ after)%string.
Proof.
  induction s as [|a s IH]; simpl.
  - rewrite orb_false_r, startsWith_app. split.
    + intros [r Hr]. now exists "", r.
    + intros [[|c p] [r Hr]]; [now exists r | discriminate].
  - rewrite orb_true_iff, startsWith_app, IH. split.
    + intros [[r Hr] | [p [r Hr]]].
      * now exists "", r.
      * exists (String a p), r. simpl. now rewrite Hr.
    + intros [[|c p] [r Hr]].
      * left. now exists r.
      * right. simpl in Hr. injection Hr as _ ->. now exists p, r.
Qed.

Lemma lower_char_idem (c : ascii) : lower_char (lower_char c) = lower_char c.
Proof.
  destruct c as [[] [] [] [] [] [] [] []]; reflexivity.
Qed.

Lemma toLowerCase_idem (s : string) : toLowerCase (toLowerCase s) = toLowerCase s.
Proof.
  induction s as [|c s IH]; simpl; [reflexivity|].
  now rewrite lower_char_idem, IH.
Qed.








Lemma trimStart_split (s : string) :
  exists before,
    s = (before ++ trimStart s)%string /\ all_whitespace before = true /\
    starts_clean (trimStart s).
Proof.
  induction s as [|c s (b & Hs & Hb & Hc)]; simpl.
  - now exists "".
  - destruct (is_whitespace c) eqn:E.
    + exists (String c b). simpl. rewrite E, Hb, <- Hs. now repeat split.
    + exists "". simpl. now repeat split.
Qed.

Lemma trimEnd_split (s : string) :
  exists after,
    s = (trimEnd s ++ after)%string /\ all_whitespace after = true /\
    ends_clean (trimEnd s) /\ (starts_clean s -> starts_clean (trimEnd s)).
Proof.
  induction s as [|c s (a & Hs & Ha & Hc & _)]; simpl.
  - now exists "".
  - destruct (trimEnd s) as [|d r] eqn:Et.
    + destruct (is_whitespace c) eqn:E.
      * exists (String c s). simpl in *. subst a. rewrite E, Ha. now repeat split.
      * exists a. simpl in *. subst a. now repeat split.
    + exists a. simpl in *. rewrite <- Hs. repeat split; auto.
Qed.

(** [trim] cuts white space off both ends and stops at the first and the
    last code unit that is not white space. *)
Lemma trim_spec (s : string) :
  exists before after,
    s = (before ++ trim s ++ after)%string /\
    all_whitespace before = true /\ all_whitespace after = true /\
    starts_clean (trim s) /\ ends_clean (trim s).
Proof.
  destruct (trimStart_split s) as (b & Hs & Hb & Hc).
  destruct (trimEnd_split (trimStart s)) as (a & Hs' & Ha & Hc' & Hk).
  exists b, a. unfold trim. repeat split; try assumption.
  - now rewrite <- Hs'.
  - now apply Hk.
Qed.


Lemma truthy_true (s : string) : truthy s = true <-> s <> "".
Proof. destruct s; simpl; split; congruence. Qed.

(** Text is rejected exactly when it is not valid. *)
Lemma valid_text_dec (s : string) :
  valid_text s <->
  negb (truthy (trim s)) = false /\ (200 <? Z.of_nat (length (trim s)))%Z = false.
Proof.
  unfold valid_text. rewrite negb_false_iff, truthy_true, Z.ltb_ge. tauto.
Qed.

End StringFacts.

Example trim_examples :
  trim "  Buy milk  " = "Buy milk" /\ trim "" = "" /\ trim " " = "".
Proof. repeat split. Qed.

Example parseInt_examples :
  parseInt "42" = Some 42 /\ parseInt " -7px" = Some (-7) /\
  parseInt "0x1F" = Some 31 /\ parseInt "abc" = None /\
  toString 120 = "120" /\ toString (-5) = "-5".
Proof. repeat split. Qed.

Example includes_examples :
  includes "buy milk" "milk" = true /\ includes "buy milk" "eggs" = false /\
  toLowerCase "Buy MILK" = "buy milk".
Proof. repeat split. Qed.

(** ** Numbers: [parseInt] reads back what [toString] prints *)

Section NumberFacts.

Import DecimalPos.Unsigned.

Local Abbreviation str := NilEmpty.string_of_uint.

Lemma parse_digits_step (a v : Z) (c : ascii) (s : string) :
  digit_of 10 c = Some v ->
  parse_digits 10 (Some a) (String c s) = parse_digits 10 (Some (a * 10 + v)) s.
Proof. intros H. simpl. now rewrite H. Qed.

(** One more digit in front of [d], seen from both ends. *)
Ltac digit_case IH d hd :=
  cbn [NilEmpty.string_of_uint];
  erewrite parse_digits_step by reflexivity;
  rewrite IH; f_equal;
  change (Decimal.rev (hd d)) with (Decimal.revapp d (hd Decimal.Nil));
  rewrite (of_lu_revapp d (hd Decimal.Nil));
  cbn [usize];
  rewrite N2Z.inj_succ, Z.pow_succ_r by apply N2Z.is_nonneg;
  rewrite N2Z.inj_add, N2Z.inj_mul, N2Z.inj_pow;
  match goal with
  | |- context [if ?b then ?x else ?y] =>
      let v := eval vm_compute in (if b then x else y) in
      change (if b then x else y) with v
  end;
  match goal with
  | |- context [Z.of_N (of_lu (hd Decimal.Nil))] =>
      let v := eval vm_compute in (Z.of_N (of_lu (hd Decimal.Nil))) in
      change (Z.of_N (of_lu (hd Decimal.Nil))) with v
  end;
  change (Z.of_N 10) with 10%Z; ring.

(** Horner evaluation of the digits, most significant first. *)
Lemma parse_digits_value (d : Decimal.uint) (a : Z) :
  parse_digits 10 (Some a) (str d) =
  Some (a * 10 ^ Z.of_N (usize d) + Z.of_N (of_lu (Decimal.rev d))).
Proof.
  revert a.
  induction d as [|d IH|d IH|d IH|d IH|d IH|d IH|d IH|d IH|d IH|d IH]; intros a.
  - simpl. f_equal. ring.
  - digit_case IH d Decimal.D0.
  - digit_case IH d Decimal.D1.
  - digit_case IH d Decimal.D2.
  - digit_case IH d Decimal.D3.
  - digit_case IH d Decimal.D4.
  - digit_case IH d Decimal.D5.
  - digit_case IH d Decimal.D6.
  - digit_case IH d Decimal.D7.
  - digit_case IH d Decimal.D8.
  - digit_case IH d Decimal.D9.
Qed.

Lemma trimStart_digits (d : Decimal.uint) : trimStart (str d) = str d.
Proof. destruct d; reflexivity. Qed.

Lemma parse_unsigned_digits (d : Decimal.uint) :
  parse_unsigned (str d) = parse_digits 10 None (str d).
Proof.
  destruct d as [|d|d|d|d|d|d|d|d|d|d]; try reflexivity.
  destruct d; reflexivity.
Qed.

(** From an empty accumulator the first digit starts the number. *)
Lemma parse_digits_start (d : Decimal.uint) :
  d <> Decimal.Nil ->
  parse_digits 10 None (str d) = parse_digits 10 (Some 0) (str d).
Proof. destruct d; [congruence | reflexivity ..]. Qed.

Lemma parse_unsigned_pos (p : positive) :
  parse_unsigned (str (Pos.to_uint p)) = Some (Zpos p).
Proof.
  rewrite parse_unsigned_digits, parse_digits_start by apply to_uint_nonnil.
  rewrite parse_digits_value, <- of_uint_alt, of_to. reflexivity.
Qed.

Lemma string_of_pos (p : positive) :
  NilZero.string_of_uint (Pos.to_uint p) = str (Pos.to_uint p).
Proof.
  pose proof (to_uint_nonnil p) as H.
  destruct (Pos.to_uint p); [congruence | reflexivity ..].
Qed.

Lemma sign_free (d : Decimal.uint) :
  match str d with
  | String "-" _ | String "+" _ => False
  | _ => True
  end.
Proof. destruct d; exact I. Qed.

(** The counter survives the way through [localStorage]. *)
Theorem parseInt_toString (z : Z) : parseInt (toString z) = Some z.
Proof.
  destruct z as [|p|p]; [reflexivity | |].
  - unfold toString, parseInt. cbn [Z.to_int NilZero.string_of_int].
    rewrite string_of_pos, trimStart_digits, <- (parse_unsigned_pos p).
    pose proof (sign_free (Pos.to_uint p)) as H.
    destruct (str (Pos.to_uint p)) as [|c s]; [reflexivity|].
    destruct c as [[] [] [] [] [] [] [] []]; first [reflexivity | contradiction].
  - unfold toString, parseInt. cbn [Z.to_int NilZero.string_of_int].
    rewrite string_of_pos. 
    change (trimStart (String "-" ?s)) with (String "-" s).
    cbv iota beta. rewrite parse_unsigned_pos. reflexivity.
Qed.

Lemma toString_truthy (z : Z) : truthy (toString z) = true.
Proof.
  destruct z as [|p|p]; [reflexivity | | reflexivity].
  unfold toString. cbn [Z.to_int NilZero.string_of_int].
  rewrite string_of_pos. pose proof (to_uint_nonnil p) as H.
  destruct (Pos.to_uint p); [congruence | reflexivity ..].
Qed.

End NumberFacts.

(** ** Lists of tasks *)

Section TaskListFacts.

Lemma filter_filter {A} (p q : A -> bool) (l : list A) :
  filter q (filter p l) = filter (fun x => p x && q x) l.
Proof.
  induction l as [|x l IH]; simpl; [reflexivity|].
  destruct (p x); simpl; [destruct (q x)|]; now rewrite IH.
Qed.

Lemma filter_all {A} (p : A -> bool) (l : list A) :
  (forall x, In x l -> p x = true) -> filter p l = l.
Proof.
  induction l as [|x l IH]; simpl; intros H; [reflexivity|].
  rewrite (H x) by now left. f_equal. apply IH. intros y Hy. apply H. now right.
Qed.

(** [find] splits the array at the first task with the id. *)
Lemma find_task_split (taskId : Z) (ts : list Task) (t : Task) :
  find_task taskId ts = Some t ->
  exists before after,
    ts = before ++ t :: after /\ find_task taskId before = None /\ id t = taskId.
Proof.
  unfold find_task. induction ts as [|u ts IH]; simpl; [discriminate|].
  destruct (id u =? taskId)%Z eqn:E.
  - intros [= ->]. exists [], ts. repeat split. now apply Z.eqb_eq.
  - intros H. destruct (IH H) as (b & a & -> & Hb & Hid).
    exists (u :: b), a. simpl. rewrite E. now repeat split.
Qed.

Lemma update_found_split (taskId : Z) (f : Task -> Task) (before after : list Task) (t : Task) :
  find_task taskId before = None -> id t = taskId ->
  update_found taskId f (before ++ t :: after) = before ++ f t :: after.
Proof.
  unfold find_task. intros Hb Hid.
  induction before as [|u b IH]; simpl in *.
  - now rewrite (proj2 (Z.eqb_eq _ _) Hid).
  - destruct (id u =? taskId)%Z; [discriminate|]. now rewrite IH.
Qed.

Lemma find_task_app (taskId : Z) (before after : list Task) (t : Task) :
  find_task taskId before = None -> id t = taskId ->
  find_task taskId (before ++ t :: after) = Some t.
Proof.
  unfold find_task. intros Hb Hid.
  induction before as [|u b IH]; simpl in *.
  - now rewrite (proj2 (Z.eqb_eq _ _) Hid).
  - destruct (id u =? taskId)%Z; [discriminate|]. now apply IH.
Qed.

Lemma find_task_none (taskId : Z) (ts : list Task) :
  find_task taskId ts = None <-> ~ In taskId (map id ts).
Proof.
  unfold find_task. induction ts as [|u ts IH]; simpl; [tauto|].
  destruct (id u =? taskId)%Z eqn:E.
  - apply Z.eqb_eq in E. split; [discriminate | tauto].
  - apply Z.eqb_neq in E. tauto.
Qed.

Lemma find_task_removed (taskId : Z) (ts : list Task) :
  find_task taskId (filter (fun task => negb (id task =? taskId)%Z) ts) = None.
Proof.
  apply find_task_none. rewrite in_map_iff. intros (u & Hid & Hu).
  apply filter_In in Hu as [_ Hu]. apply negb_true_iff, Z.eqb_neq in Hu. tauto.
Qed.

Lemma shown_task (taskId : Z) (l : list Z) :
  existsb (Z.eqb taskId) l = true <-> In taskId l.
Proof.
  rewrite existsb_exists. split.
  - intros (x & Hx & E). apply Z.eqb_eq in E. now subst.
  - intros H. exists taskId. split; [assumption | apply Z.eqb_refl].
Qed.

Lemma includes_empty (s : string) : includes s "" = true.
Proof. destruct s; reflexivity. Qed.

Lemma getFilteredTasks_incl (w : World) (t : Task) :
  In t (getFilteredTasks w) -> In t (tasks w).
Proof.
  unfold getFilteredTasks.
  destruct (currentFilter w =? "completed"), (currentFilter w =? "pending"),
    (truthy (currentSearchTerm w)); intros H;
    repeat match goal with
      | H : In _ (filter _ _) |- _ => apply filter_In in H as [H _]
      end; assumption.
Qed.

End TaskListFacts.

(** ** What the helpers leave alone *)

Section Helpers.

Variable w : World.

Lemma save_tasks : tasks (saveTasksToStorage w) = tasks w.
Proof. unfold saveTasksToStorage. now destruct (status (localStorage w)). Qed.

Lemma save_taskIdCounter : taskIdCounter (saveTasksToStorage w) = taskIdCounter w.
Proof. unfold saveTasksToStorage. now destruct (status (localStorage w)). Qed.

Lemma save_currentFilter : currentFilter (saveTasksToStorage w) = currentFilter w.
Proof. unfold saveTasksToStorage. now destruct (status (localStorage w)). Qed.

Lemma save_currentSearchTerm :
  currentSearchTerm (saveTasksToStorage w) = currentSearchTerm w.
Proof. unfold saveTasksToStorage. now destruct (status (localStorage w)). Qed.

Lemma save_timers : timers (saveTasksToStorage w) = timers w.
Proof. unfold saveTasksToStorage. now destruct (status (localStorage w)). Qed.

Lemma save_status :
  status (localStorage (saveTasksToStorage w)) = status (localStorage w).
Proof. unfold saveTasksToStorage. now destruct (status (localStorage w)) eqn:E. Qed.

Lemma save_available :
  status (localStorage w) = Available ->
  localStorage (saveTasksToStorage w) =
    mkStorage (Some (JSON_stringify (tasks w)))
              (Some (toString (taskIdCounter w))) Available.
Proof. unfold saveTasksToStorage. now intros ->. Qed.

Lemma getFilteredTasks_save :
  getFilteredTasks (saveTasksToStorage w) = getFilteredTasks w.
Proof.
  unfold getFilteredTasks.
  now rewrite save_tasks, save_currentFilter, save_currentSearchTerm.
Qed.

Lemma render_rendered : rendered (renderTasks w).
Proof. reflexivity. Qed.

Lemma notify_rendered (message type : string) :
  rendered w -> rendered (showNotification message type w).
Proof. intros H. exact H. Qed.

End Helpers.

Create Rewrite HintDb world.

#[local] Hint Rewrite save_tasks save_taskIdCounter save_currentFilter
  save_currentSearchTerm save_timers save_status getFilteredTasks_save : world.

(** Unfold a method down to the fields of the world it returns. *)
Ltac fields := cbn; autorewrite with world; cbn.

(** ** Adding a task *)

Lemma new_TodoApp_fresh : new_TodoApp empty_storage = Some fresh.
Proof. reflexivity. Qed.

(** The success path of [addTask]. *)
Lemma addTask_valid (now : string) (w : World) :
  valid_text (taskInput_value w) ->
  addTask now w =
  (Return undefined,
   w |> set_taskIdCounter (taskIdCounter w + 1)
     |> set_tasks (mkTask (taskIdCounter w) (trim (taskInput_value w)) false now None
                     :: tasks w)
     |> set_taskInput_value ""
     |> saveTasksToStorage
     |> renderTasks
     |> showNotification "Task added successfully!" "success").
Proof.
  intros Hv. apply valid_text_dec in Hv as [Hv1 Hv2].
  unfold addTask. now rewrite Hv1, Hv2.
Qed.

(** C1, as the code has it.  [addTask] trims the text of the input box.
    Text that is empty or longer than 200 code units once trimmed gets a
    warning notification and nothing else changes.  Any other text makes
    the task with id = counter, the trimmed text, completed = false,
    createdAt = now and completedAt = null; the task goes to the front of
    the array, the counter goes up by one, and tasks and counter are
    written to the storage (a storage that refuses the write leaves an
    error notification instead).  The call returns [undefined] in every
    case: the created task is the first element of the array. *)
Theorem addTask_spec (now : string) (w : World) :
  let text := trim (taskInput_value w) in
  let r := addTask now w in
  fst r = Return undefined /\
  (text = "" \/ (200 < Z.of_nat (length text))%Z ->
     reports_failure w r /\
     exists message, snd r = showNotification message "warning" w) /\
  (valid_text (taskInput_value w) ->
     let task := mkTask (taskIdCounter w) text false now None in
     tasks (snd r) = task :: tasks w /\
     taskIdCounter (snd r) = taskIdCounter w + 1 /\
     currentFilter (snd r) = currentFilter w /\
     currentSearchTerm (snd r) = currentSearchTerm w /\
     (status (localStorage w) = Available ->
        localStorage (snd r) =
          mkStorage (Some (JSON_stringify (task :: tasks w)))
                    (Some (toString (taskIdCounter w + 1))) Available) /\
     (status (localStorage w) <> Available ->
        localStorage (snd r) = localStorage w /\
        In ("Failed to save tasks!", "error") (notifications (snd r)))).
Proof.
  cbv zeta. unfold addTask.
  destruct (negb (truthy (trim (taskInput_value w)))) eqn:E1;
    [|destruct (200 <? Z.of_nat (length (trim (taskInput_value w))))%Z eqn:E2].
  - split; [reflexivity|]. split.
    + intros _. split; [|eexists; reflexivity].
      right. eexists [_], _, _. cbn. split; [reflexivity|]. split; now left.
    + intros H. apply valid_text_dec in H as [H _]. congruence.
  - split; [reflexivity|]. split.
    + intros _. split; [|eexists; reflexivity].
      right. eexists [_], _, _. cbn. split; [reflexivity|]. split; now left.
    + intros H. apply valid_text_dec in H as [_ H]. congruence.
  - split; [reflexivity|]. split.
    + apply negb_false_iff, truthy_true in E1. apply Z.ltb_ge in E2.
      intros [H | H]; [contradiction | lia].
    + intros _. unfold saveTasksToStorage. cbn.
      destruct (status (localStorage w)) eqn:Es; cbn;
        repeat split; try reflexivity; try congruence;
        rewrite ?in_app_iff; cbn; tauto.
Qed.

(** C1, witness: "  Buy milk  " typed into a fresh page, and an empty box. *)
Lemma addTask_spec_witness :
  tasks (snd (addTask "2024-05-01T10:00:00.000Z"
                (set_taskInput_value "  Buy milk  " fresh))) = [milk] /\
  exists message,
    snd (addTask "2024-05-01T10:00:00.000Z" fresh) =
    showNotification message "warning" fresh.
Proof.
  split.
  - apply (addTask_spec "2024-05-01T10:00:00.000Z"
             (set_taskInput_value "  Buy milk  " fresh)).
    split; [discriminate | vm_compute; discriminate].
  - apply (addTask_spec "2024-05-01T10:00:00.000Z" fresh). left. reflexivity.
Defined.

(** C1, as stated, fails: the call that adds "Buy milk" puts the new task
    into the array and returns [undefined], not the task. *)
Lemma addTask_returns_undefined :
  let r := addTask "2024-05-01T10:00:00.000Z" (set_taskInput_value "Buy milk" fresh) in
  valid_text "Buy milk" /\ tasks (snd r) = [milk] /\ fst r <> Return (object milk).
Proof.
  cbv zeta. split; [split; [discriminate | vm_compute; discriminate]|].
  split; [reflexivity | discriminate].
Qed.

(** ** Deleting a task *)

(** C3, as the code has it.  For the id of a task that the page shows,
    [deleteTask] itself leaves the task array and the storage as they are
    and only schedules a callback.  When that callback runs, in whatever
    world it then finds, it removes every task with the id and writes the
    remaining tasks and the counter to the storage in the same step. *)
Theorem deleteTask_deferred (taskId : Z) (w : World) :
  In taskId (taskList w) ->
  let r := deleteTask taskId w in
  fst r = Return undefined /\
  tasks (snd r) = tasks w /\
  localStorage (snd r) = localStorage w /\
  timers (snd r) = timers w ++ [taskId] /\
  (timers w = [] -> run_timer (snd r) = deleteTask_callback taskId w) /\
  forall w' : World,
    let w2 := deleteTask_callback taskId w' in
    tasks w2 = filter (fun task => negb (id task =? taskId)%Z) (tasks w') /\
    find_task taskId (tasks w2) = None /\
    (status (localStorage w') = Available ->
       localStorage w2 =
         mkStorage (Some (JSON_stringify (tasks w2)))
                   (Some (toString (taskIdCounter w'))) Available).
Proof.
  intros Hshown. cbv zeta. unfold deleteTask.
  rewrite (proj2 (shown_task _ _) Hshown). cbn.
  repeat split.
  - intros Ht. unfold run_timer. cbn. rewrite Ht. cbn.
    destruct w; cbn in *; subst; reflexivity.
  - unfold deleteTask_callback. now fields.
  - unfold deleteTask_callback. fields. apply find_task_removed.
  - intros Hs. unfold deleteTask_callback. fields.
    rewrite save_available by exact Hs. reflexivity.
Qed.

(** C3, witness: the task of [one_task] is shown on the page. *)
Lemma deleteTask_deferred_witness :
  tasks (snd (deleteTask 1 one_task)) = [milk] /\
  timers (snd (deleteTask 1 one_task)) = [1] /\
  tasks (run_timer (snd (deleteTask 1 one_task))) = [].
Proof.
  assert (H : In 1 (taskList one_task)) by (left; reflexivity).
  pose proof (deleteTask_deferred 1 one_task H) as (_ & Ht & _ & Hq & Hr & _).
  split; [exact Ht|]. split; [exact Hq|].
  rewrite Hr; reflexivity.
Defined.

(** C3, as stated, fails: when [deleteTask] returns, the task is still in
    the array and still in the storage. *)
Lemma deleteTask_not_immediate :
  let w := snd (deleteTask 1 one_task) in
  find_task 1 (tasks one_task) = Some milk /\
  find_task 1 (tasks w) = Some milk /\
  todoApp_tasks (localStorage w) = Some (JSON_stringify [milk]).
Proof. repeat split. Qed.

(** ** An id that the store does not hold *)

Lemma unknown_id_noop (taskId : Z) (now newText : string) (w : World) :
  ~ In taskId (map id (tasks w)) ->
  rendered w ->
  valid_text newText ->
  toggleTask taskId now w = (Return undefined, w) /\
  saveEditTask taskId newText w = (Return undefined, w) /\
  deleteTask taskId w = (Return undefined, w).
Proof.
  intros Hid Hr Hv.
  assert (Hf : find_task taskId (tasks w) = None) by now apply find_task_none.
  apply valid_text_dec in Hv as [Hv1 Hv2].
  unfold toggleTask, saveEditTask, deleteTask. rewrite Hf, Hv1, Hv2.
  repeat split.
  destruct (existsb (Z.eqb taskId) (taskList w)) eqn:E; [|reflexivity].
  exfalso. apply shown_task in E. rewrite Hr in E. apply Hid.
  apply in_map_iff in E as (t & Ht & Hin).
  apply in_map_iff. exists t. split; [assumption|].
  now apply getFilteredTasks_incl.
Qed.

(** C4, as the code has it.  For an id that no task of the store has, on a
    page that shows the filtered view, [toggleTask], [saveEditTask] with
    valid text and [deleteTask] return [undefined] and leave the whole
    world as it was: tasks, counter and storage are unchanged, nothing is
    thrown and no notification is shown.  Such is the world that the
    callback of [deleteTask] leaves for the deleted id. *)
Theorem unknown_id_silent (taskId : Z) (now newText : string) (w : World) :
  valid_text newText ->
  (~ In taskId (map id (tasks w)) -> rendered w ->
   toggleTask taskId now w = (Return undefined, w) /\
   saveEditTask taskId newText w = (Return undefined, w) /\
   deleteTask taskId w = (Return undefined, w)) /\
  (let w2 := deleteTask_callback taskId w in
   toggleTask taskId now w2 = (Return undefined, w2) /\
   saveEditTask taskId newText w2 = (Return undefined, w2) /\
   deleteTask taskId w2 = (Return undefined, w2)).
Proof.
  intros Hv. split.
  - intros Hid Hr. now apply unknown_id_noop.
  - cbv zeta. apply unknown_id_noop; [|reflexivity|exact Hv].
    apply find_task_none. unfold deleteTask_callback. fields.
    apply find_task_removed.
Qed.

(** C4, witness: id 7 on the page that holds the task with id 1, and id 1
    once the callback of its deletion has run. *)
Lemma unknown_id_silent_witness :
  (toggleTask 7 "2024-05-02T09:00:00.000Z" one_task = (Return undefined, one_task) /\
   saveEditTask 7 "Buy eggs" one_task = (Return undefined, one_task) /\
   deleteTask 7 one_task = (Return undefined, one_task)) /\
  tasks (snd (toggleTask 1 "2024-05-02T09:00:00.000Z"
                (deleteTask_callback 1 one_task))) = [].
Proof.
  assert (Hv : valid_text "Buy eggs")
    by (split; [discriminate | vm_compute; discriminate]).
  split.
  - apply (unknown_id_silent 7 "2024-05-02T09:00:00.000Z" "Buy eggs" one_task Hv).
    + simpl. intros [H | []]. discriminate.
    + reflexivity.
  - destruct (unknown_id_silent 1 "2024-05-02T09:00:00.000Z" "Buy eggs" one_task Hv)
      as (_ & -> & _). reflexivity.
Defined.

(** C4, as stated, fails: on an id that the store does not hold, none of
    the three calls reports a failure. *)
Lemma unknown_id_no_error :
  ~ In 7 (map id (tasks one_task)) /\
  ~ reports_failure one_task (toggleTask 7 "2024-05-02T09:00:00.000Z" one_task) /\
  ~ reports_failure one_task (saveEditTask 7 "Buy eggs" one_task) /\
  ~ reports_failure one_task (deleteTask 7 one_task).
Proof.
  split; [simpl; intros [H | []]; discriminate|].
  repeat split;
    (intros [[e He] | (shown & msg & ty & Hn & Hin & _)];
     [discriminate He | destruct shown; [destruct Hin | discriminate Hn]]).
Qed.

(** ** Toggling a task *)

Lemma toggleTask_found (taskId : Z) (now : string) (w : World) (t : Task) :
  find_task taskId (tasks w) = Some t ->
  exists before after,
    tasks w = before ++ t :: after /\
    find_task taskId before = None /\ id t = taskId /\
    tasks (snd (toggleTask taskId now w)) = before ++ toggle now t :: after.
Proof.
  intros Hf. destruct (find_task_split _ _ _ Hf) as (b & a & Hs & Hb & Hid).
  exists b, a. repeat split; try assumption.
  unfold toggleTask. rewrite Hf. fields. rewrite Hs.
  now apply update_found_split.
Qed.

(** C5, as the code has it.  Two calls of [toggleTask] on the id of a task
    of the store bring [completed] back to its first value and leave id,
    text and createdAt alone.  completedAt is null afterwards when the
    task was pending, which is its first value when that was null, and is
    the time of the second call when the task was completed. *)
Theorem toggleTask_twice (taskId : Z) (now1 now2 : string) (w : World) (t : Task) :
  find_task taskId (tasks w) = Some t ->
  let w2 := snd (toggleTask taskId now2 (snd (toggleTask taskId now1 w))) in
  let t2 := mkTask (id t) (text t) (completed t) (createdAt t)
              (if completed t then Some now2 else None) in
  find_task taskId (tasks w2) = Some t2 /\
  (completed t = false -> completedAt t = None -> t2 = t).
Proof.
  intros Hf. cbv zeta.
  destruct (toggleTask_found taskId now1 w t Hf) as (b & a & Hs & Hb & Hid & H1).
  assert (Hf1 : find_task taskId (tasks (snd (toggleTask taskId now1 w))) =
                Some (toggle now1 t)) by (rewrite H1; now apply find_task_app).
  destruct (toggleTask_found taskId now2 _ _ Hf1) as (b' & a' & Hs' & Hb' & Hid' & H2).
  split.
  - rewrite H2, (find_task_app taskId b' a' _ Hb') by exact Hid.
    unfold toggle. cbn. rewrite negb_involutive. now destruct (completed t).
  - intros Hc Ha. destruct t; cbn in *; subst; reflexivity.
Qed.

(** C5, witness: the pending task of [one_task], toggled twice. *)
Lemma toggleTask_twice_witness :
  find_task 1 (tasks (snd (toggleTask 1 "2024-05-03T08:00:00.000Z"
                        (snd (toggleTask 1 "2024-05-02T09:00:00.000Z" one_task)))))
  = Some milk.
Proof.
  apply (toggleTask_twice 1 "2024-05-02T09:00:00.000Z" "2024-05-03T08:00:00.000Z"
           one_task milk).
  reflexivity.
Defined.

(** C5, as stated, fails: a task completed on 2 May and toggled twice on
    3 May comes back completed, with the later of the two times as its
    completedAt. *)
Lemma toggleTask_twice_moves_completedAt :
  let done := mkTask 1 "Buy milk" true "2024-05-01T10:00:00.000Z"
                (Some "2024-05-02T09:00:00.000Z") in
  let w := set_tasks [done] one_task in
  let w2 := snd (toggleTask 1 "2024-05-03T08:00:01.000Z"
                   (snd (toggleTask 1 "2024-05-03T08:00:00.000Z" w))) in
  find_task 1 (tasks w) = Some done /\
  exists t2, find_task 1 (tasks w2) = Some t2 /\
             completedAt t2 = Some "2024-05-03T08:00:01.000Z" /\
             completedAt t2 <> completedAt done.
Proof.
  cbv zeta. split; [reflexivity|].
  eexists. split; [reflexivity|]. split; [reflexivity | discriminate].
Qed.

(** ** Editing a task *)

(** C7.  [saveEditTask] with text that trims to the empty string or to
    more than 200 code units shows a warning notification and changes
    nothing else: the task keeps its text, and the other tasks, the
    counter and the storage stay as they were.  The call returns
    [undefined] when the page has the list element of the task. *)
Theorem saveEditTask_invalid (taskId : Z) (newText : string) (w : World) :
  trim newText = "" \/ (200 < Z.of_nat (length (trim newText)))%Z ->
  let r := saveEditTask taskId newText w in
  (exists message, snd r = showNotification message "warning" w) /\
  reports_failure w r /\
  tasks (snd r) = tasks w /\
  find_task taskId (tasks (snd r)) = find_task taskId (tasks w) /\
  taskIdCounter (snd r) = taskIdCounter w /\
  localStorage (snd r) = localStorage w /\
  (In taskId (taskList w) -> fst r = Return undefined).
Proof.
  intros Hbad. cbv zeta.
  assert (Hshape : exists message,
             saveEditTask taskId newText w =
             (if existsb (Z.eqb taskId) (taskList w)
              then Return undefined else Throw "TypeError",
              showNotification message "warning" w)).
  { unfold saveEditTask, cancelEditTask. cbn.
    destruct (negb (truthy (trim newText))) eqn:E1.
    - eexists. destruct (existsb (Z.eqb taskId) (taskList w)); reflexivity.
    - destruct (200 <? Z.of_nat (length (trim newText)))%Z eqn:E2.
      + eexists. destruct (existsb (Z.eqb taskId) (taskList w)); reflexivity.
      + apply negb_false_iff, truthy_true in E1. apply Z.ltb_ge in E2.
        destruct Hbad; [contradiction | lia]. }
  destruct Hshape as (message & ->). cbn.
  split; [now exists message|]. split.
  - right. exists [(message, "warning")], message, "warning".
    repeat split; [now left | now left].
  - repeat split. intros Hin. now rewrite (proj2 (shown_task _ _) Hin).
Qed.

(** C7, witness: a blank replacement for the text of the task of [one_task]. *)
Lemma saveEditTask_invalid_witness :
  find_task 1 (tasks (snd (saveEditTask 1 " " one_task))) = Some milk /\
  fst (saveEditTask 1 " " one_task) = Return undefined.
Proof.
  assert (H : trim " " = "" \/ (200 < Z.of_nat (length (trim " ")))%Z)
    by (left; reflexivity).
  pose proof (saveEditTask_invalid 1 " " one_task H) as (_ & _ & _ & Hf & _ & _ & Hr).
  split; [exact Hf | apply Hr; left; reflexivity].
Defined.

(** ** Choosing a filter *)

(** C8, as the code has it.  [setFilter] makes any value the current
    filter, without a check: it returns [undefined], shows no
    notification, leaves tasks, counter, search term and storage alone
    and renders the list again.  With a value that is neither completed
    nor pending the completion filter passes every task. *)
Theorem setFilter_any (f : string) (w : World) :
  let r := setFilter f w in
  fst r = Return undefined /\
  currentFilter (snd r) = f /\
  notifications (snd r) = notifications w /\
  tasks (snd r) = tasks w /\
  taskIdCounter (snd r) = taskIdCounter w /\
  currentSearchTerm (snd r) = currentSearchTerm w /\
  localStorage (snd r) = localStorage w /\
  rendered (snd r) /\
  ((f =? "completed") = false -> (f =? "pending") = false ->
   currentSearchTerm w = "" -> getFilteredTasks (snd r) = tasks w).
Proof.
  cbv zeta. repeat split.
  intros H1 H2 H3. unfold getFilteredTasks. cbn. now rewrite H1, H2, H3.
Qed.

(** C8, witness: a value outside the three names shows the whole store. *)
Lemma setFilter_any_witness :
  getFilteredTasks (snd (setFilter "urgent" one_task)) = [milk].
Proof.
  apply (setFilter_any "urgent" one_task); reflexivity.
Defined.

(** C8, as stated, fails: a value outside the three names replaces the
    current filter and no failure is reported. *)
Lemma setFilter_no_validation :
  let r := setFilter "urgent" one_task in
  currentFilter one_task = "all" /\
  currentFilter (snd r) = "urgent" /\
  ~ reports_failure one_task r.
Proof.
  cbv zeta. repeat split.
  intros [[e He] | (shown & msg & ty & Hn & Hin & _)];
    [discriminate He | destruct shown; [destruct Hin | discriminate Hn]].
Qed.

(** ** What toggling, editing and deleting leave alone *)

(** C10.  Let [t] be the task that the store holds for an id, at some
    place [before ++ t :: after] of the array.  [toggleTask] puts at that
    place a task with the id, text and createdAt of [t]; [saveEditTask]
    with valid text puts there [t] with the new trimmed text and nothing
    else changed; in both cases [before] and [after] are as they were.
    [deleteTask] changes no field of the application, and its callback
    keeps exactly the tasks with another id, in their order.  The counter,
    the current filter and the search term are unchanged throughout. *)
Theorem frame_of_mutations (taskId : Z) (now newText : string) (w : World) (t : Task) :
  find_task taskId (tasks w) = Some t ->
  valid_text newText ->
  exists before after,
    tasks w = before ++ t :: after /\ find_task taskId before = None /\
    (let w1 := snd (toggleTask taskId now w) in
     let t1 := toggle now t in
     tasks w1 = before ++ t1 :: after /\
     id t1 = id t /\ text t1 = text t /\ createdAt t1 = createdAt t /\
     taskIdCounter w1 = taskIdCounter w /\
     currentFilter w1 = currentFilter w /\
     currentSearchTerm w1 = currentSearchTerm w) /\
    (let w2 := snd (saveEditTask taskId newText w) in
     tasks w2 =
       before ++ mkTask (id t) (trim newText) (completed t) (createdAt t)
                   (completedAt t) :: after /\
     taskIdCounter w2 = taskIdCounter w /\
     currentFilter w2 = currentFilter w /\
     currentSearchTerm w2 = currentSearchTerm w) /\
    (let w3 := snd (deleteTask taskId w) in
     let w4 := deleteTask_callback taskId w3 in
     tasks w3 = tasks w /\
     tasks w4 = filter (fun task => negb (id task =? taskId)%Z) (tasks w) /\
     (forall u, id u <> taskId -> In u (tasks w4) <-> In u (tasks w)) /\
     taskIdCounter w4 = taskIdCounter w /\
     currentFilter w4 = currentFilter w /\
     currentSearchTerm w4 = currentSearchTerm w).
Proof.
  intros Hf Hv.
  destruct (find_task_split _ _ _ Hf) as (b & a & Hs & Hb & Hid).
  apply valid_text_dec in Hv as [Hv1 Hv2].
  exists b, a. split; [assumption|]. split; [assumption|]. cbv zeta.
  split; [|split].
  - unfold toggleTask. rewrite Hf. fields. rewrite Hs.
    rewrite update_found_split by assumption. now repeat split.
  - unfold saveEditTask. rewrite Hv1, Hv2, Hf. fields. rewrite Hs.
    rewrite update_found_split by assumption. now repeat split.
  - assert (Hw3 : forall w', tasks w' = tasks w ->
              tasks (deleteTask_callback taskId w') =
              filter (fun task => negb (id task =? taskId)%Z) (tasks w)).
    { intros w' E. unfold deleteTask_callback. fields. now rewrite E. }
    unfold deleteTask.
    destruct (existsb (Z.eqb taskId) (taskList w)); cbn [snd];
      (split; [reflexivity|]; split; [now apply Hw3|]; split;
       [|unfold deleteTask_callback; fields; now repeat split]);
      intros u Hu; rewrite Hw3 by reflexivity; rewrite filter_In;
      apply Z.eqb_neq in Hu; rewrite Hu; cbn; tauto.
Qed.

(** C10, witness: the task of [one_task], with "Buy eggs" as the new text. *)
Lemma frame_of_mutations_witness :
  exists before after,
    tasks one_task = before ++ milk :: after /\
    tasks (snd (saveEditTask 1 " Buy eggs " one_task)) =
      before ++ mkTask 1 "Buy eggs" false "2024-05-01T10:00:00.000Z" None :: after.
Proof.
  assert (Hf : find_task 1 (tasks one_task) = Some milk) by reflexivity.
  assert (Hv : valid_text " Buy eggs ")
    by (split; [discriminate | vm_compute; discriminate]).
  destruct (frame_of_mutations 1 "2024-05-02T09:00:00.000Z" " Buy eggs " one_task
              milk Hf Hv) as (b & a & Hs & _ & _ & (He & _) & _).
  exists b, a. split; [exact Hs | exact He].
Defined.

(** ** The filtered view *)




(** ** Loading from the storage *)




(** ** Runs: what every page keeps true *)

Section RunInvariants.

Lemma consistent_same (w w' : World) :
  localStorage w' = localStorage w -> taskIdCounter w' = taskIdCounter w ->
  consistent w -> consistent w'.
Proof. unfold consistent. now intros -> ->. Qed.

Lemma consistent_save (w : World) :
  status (localStorage w) = Available -> consistent (saveTasksToStorage w).
Proof.
  intros H. unfold consistent.
  rewrite save_available, save_taskIdCounter by exact H. cbn.
  repeat split. now exists (tasks w).
Qed.

(** A world reached through a save followed by rendering and a
    notification. *)
Lemma consistent_saved (w : World) (message type : string) :
  status (localStorage w) = Available ->
  consistent (showNotification message type (renderTasks (saveTasksToStorage w))).
Proof.
  intros H. apply (consistent_same (saveTasksToStorage w)); try reflexivity.
  now apply consistent_save.
Qed.

Lemma addTask_consistent (now : string) (w : World) :
  consistent w ->
  consistent (snd (addTask now w)) /\
  taskIdCounter w <= taskIdCounter (snd (addTask now w)).
Proof.
  intros Hc. unfold addTask.
  destruct (negb (truthy (trim (taskInput_value w))));
    [|destruct (200 <? Z.of_nat (length (trim (taskInput_value w))))%Z]; cbn [snd].
  - split; [now apply (consistent_same w) | cbn; lia].
  - split; [now apply (consistent_same w) | cbn; lia].
  - split; [apply consistent_saved; apply Hc | fields; lia].
Qed.

Lemma toggleTask_consistent (taskId : Z) (now : string) (w : World) :
  consistent w ->
  consistent (snd (toggleTask taskId now w)) /\
  taskIdCounter (snd (toggleTask taskId now w)) = taskIdCounter w.
Proof.
  intros Hc. unfold toggleTask.
  destruct (find_task taskId (tasks w)); cbn [snd]; [|now split].
  split; [apply consistent_saved; apply Hc | now fields].
Qed.

Lemma saveEditTask_consistent (taskId : Z) (newText : string) (w : World) :
  consistent w ->
  consistent (snd (saveEditTask taskId newText w)) /\
  taskIdCounter (snd (saveEditTask taskId newText w)) = taskIdCounter w.
Proof.
  intros Hc. unfold saveEditTask, cancelEditTask.
  destruct (negb (truthy (trim newText)));
    [|destruct (200 <? Z.of_nat (length (trim newText)))%Z].
  - destruct (existsb _ _); cbn; (split; [now apply (consistent_same w) | reflexivity]).
  - destruct (existsb _ _); cbn; (split; [now apply (consistent_same w) | reflexivity]).
  - destruct (find_task taskId (tasks w)); cbn [snd]; [|now split].
    split; [apply consistent_saved; apply Hc | now fields].
Qed.

Lemma run_timer_consistent (w : World) :
  consistent w ->
  consistent (run_timer w) /\ taskIdCounter (run_timer w) = taskIdCounter w.
Proof.
  intros Hc. unfold run_timer. destruct (timers w); [now split|].
  unfold deleteTask_callback.
  split; [apply consistent_saved; apply Hc | now fields].
Qed.

(** Loading what a save wrote brings the counter back. *)
Lemma new_TodoApp_consistent (w : World) :
  consistent w ->
  exists w', new_TodoApp (localStorage w) = Some w' /\
             consistent w' /\ taskIdCounter w' = taskIdCounter w.
Proof.
  intros (Hs & Hcnt & Hts).
  unfold new_TodoApp, loadTasksFromStorage, loadThemeFromStorage.
  cbn [localStorage constructed]. rewrite Hs.
  assert (Hload : forall ts,
    exists w1, load_counter (set_tasks ts (constructed (localStorage w))) = Some w1 /\
               localStorage w1 = localStorage w /\
               taskIdCounter w1 = taskIdCounter w).
  { intros ts. unfold load_counter. cbn [localStorage set_tasks constructed].
    destruct (todoApp_taskIdCounter (localStorage w)) as [s|].
    - subst s. rewrite toString_truthy, parseInt_toString. cbn. eauto.
    - cbn. eauto. }
  assert (Hdone : forall w1,
    localStorage w1 = localStorage w -> taskIdCounter w1 = taskIdCounter w ->
    exists w', match status (localStorage w1) with
               | AccessDenied => None
               | _ => Some (renderTasks w1)
               end = Some w' /\
               consistent w' /\ taskIdCounter w' = taskIdCounter w).
  { intros w1 E1 E2. rewrite E1, Hs. eexists. split; [reflexivity|].
    split; [|exact E2]. apply (consistent_same w); [exact E1 | exact E2|].
    now repeat split. }
  destruct (todoApp_tasks (localStorage w)) as [s|].
  - destruct Hts as (ts & ->). cbn.
    destruct (Hload ts) as (w1 & -> & E1 & E2). cbn.
    destruct (Hdone w1 E1 E2) as (w' & Hw' & H'). exists w'. split; [|exact H'].
    rewrite <- Hw'. now destruct (status (localStorage w1)).
  - destruct (Hload []) as (w1 & Hl & E1 & E2).
    change (set_tasks [] (constructed (localStorage w)))
      with (constructed (localStorage w)) in Hl. rewrite Hl.
    destruct (Hdone w1 E1 E2) as (w' & Hw' & H'). exists w'. split; [|exact H'].
    rewrite <- Hw'. now destruct (status (localStorage w1)).
Qed.

Lemma step_consistent (e : event) (w : World) :
  storage_answers e = true -> consistent w ->
  exists w', step e w = Some w' /\ consistent w' /\
             taskIdCounter w <= taskIdCounter w'.
Proof.
  intros He Hc. destruct e; cbn [step].
  - eexists. split; [reflexivity|]. split; [now apply (consistent_same w) | cbn; lia].
  - eexists. split; [reflexivity|]. apply addTask_consistent, Hc.
  - eexists. split; [reflexivity|].
    destruct (toggleTask_consistent taskId now w Hc) as [H1 H2]. split; [exact H1 | lia].
  - eexists. split; [reflexivity|].
    destruct (saveEditTask_consistent taskId newText w Hc) as [H1 H2].
    split; [exact H1 | lia].
  - eexists. split; [reflexivity|]. unfold deleteTask.
    destruct (existsb _ _); cbn [snd];
      (split; [now apply (consistent_same w) | cbn; lia]).
  - eexists. split; [reflexivity|].
    destruct (run_timer_consistent w Hc) as [H1 H2]. split; [exact H1 | lia].
  - eexists. split; [reflexivity|]. split; [now apply (consistent_same w) | cbn; lia].
  - eexists. split; [reflexivity|]. split; [now apply (consistent_same w) | cbn; lia].
  - destruct (new_TodoApp_consistent w Hc) as (w' & H1 & H2 & H3).
    exists w'. split; [exact H1|]. split; [exact H2 | lia].
  - destruct s; try discriminate He.
    eexists. split; [reflexivity|]. split; [|cbn; lia].
    destruct Hc as (H1 & H2 & H3). now repeat split.
Qed.

Lemma run_consistent (evs : list event) (w : World) :
  forallb storage_answers evs = true -> consistent w ->
  exists w', run evs w = Some w' /\ consistent w' /\
             taskIdCounter w <= taskIdCounter w'.
Proof.
  revert w. induction evs as [|e evs IH]; intros w He Hc; cbn [run].
  - exists w. split; [reflexivity|]. split; [exact Hc | lia].
  - cbn in He. apply andb_true_iff in He as [He Hevs].
    destruct (step_consistent e w He Hc) as (w1 & -> & Hc1 & Hle1).
    destruct (IH w1 Hevs Hc1) as (w' & Hr & Hc' & Hle).
    exists w'. split; [exact Hr|]. split; [exact Hc' | lia].
Qed.

Lemma run_app (evs1 evs2 : list event) (w : World) :
  run (evs1 ++ evs2) w =
  match run evs1 w with Some w' => run evs2 w' | None => None end.
Proof.
  revert w. induction evs1 as [|e evs1 IH]; intros w; cbn; [reflexivity|].
  destruct (step e w); [apply IH | reflexivity].
Qed.

Lemma fresh_consistent : consistent fresh.
Proof. now repeat split. Qed.

End RunInvariants.

(** ** Ids along a run *)

(** Adding valid text on a consistent page: the new task is first in the
    array, its id is the counter, and the counter has moved on. *)
Lemma add_valid (T now : string) (w : World) :
  valid_text T -> consistent w ->
  exists w' t rest,
    run [TypeInput T; AddTask now] w = Some w' /\
    tasks w' = t :: rest /\ text t = trim T /\ id t = taskIdCounter w /\
    taskIdCounter w' = taskIdCounter w + 1 /\ consistent w'.
Proof.
  intros Hv Hc. cbn [run step].
  assert (Hc' : consistent (set_taskInput_value T w))
    by now apply (consistent_same w).
  eexists. exists (mkTask (taskIdCounter w) (trim T) false now None), (tasks w).
  split; [reflexivity|].
  split; [|split; [reflexivity|split; [reflexivity|split]]].
  - rewrite addTask_valid by exact Hv. now fields.
  - rewrite addTask_valid by exact Hv. now fields.
  - now apply addTask_consistent.
Qed.

(** C2, as the code has it.  Take any run that starts on a browser that
    never ran the application and during which the storage keeps
    answering, reloads of the page included.  Whenever valid text is
    added, and valid text is added again later in the run, both tasks are
    created and the later one has the strictly greater id: each save
    writes the counter next to the tasks and each load reads it back. *)
Theorem ids_increase (evs1 evs2 : list event) (T1 now1 T2 now2 : string) :
  forallb storage_answers evs1 = true ->
  forallb storage_answers evs2 = true ->
  valid_text T1 -> valid_text T2 ->
  later_id_greater evs1 T1 now1 evs2 T2 now2.
Proof.
  intros He1 He2 Hv1 Hv2. unfold later_id_greater.
  destruct (run_consistent evs1 fresh He1 fresh_consistent) as (w1 & Hr1 & Hc1 & _).
  destruct (add_valid T1 now1 w1 Hv1 Hc1) as (wa & ta & ra & Hra & Hta & Hxa & Hia & Hna & Hca).
  destruct (run_consistent evs2 wa He2 Hca) as (w2 & Hr2 & Hc2 & Hle).
  destruct (add_valid T2 now2 w2 Hv2 Hc2) as (wb & tb & rb & Hrb & Htb & Hxb & Hib & _ & _).
  exists wa, wb, ta, tb, ra, rb.
  rewrite !run_app, Hr1, Hr2.
  repeat split; try assumption. lia.
Qed.

(** C2, witness: two tasks added with a toggle, a search and a reload of
    the page in between. *)
Lemma ids_increase_witness :
  later_id_greater [Search "milk"] "Buy milk" "2024-05-01T10:00:00.000Z"
    [ToggleTask 1 "2024-05-02T09:00:00.000Z"; Reload] "Buy eggs"
    "2024-05-02T10:00:00.000Z".
Proof.
  apply ids_increase; try reflexivity;
    (split; [discriminate | vm_compute; discriminate]).
Defined.

(** C2, as stated, fails: the storage refuses the write while "Buy milk" is
    added with id 1; after a reload the counter is 1 again and "Buy eggs"
    gets id 1 as well. *)
Lemma id_repeats_after_failed_save :
  valid_text "Buy milk" /\ valid_text "Buy eggs" /\
  ~ later_id_greater [StorageStatus QuotaExceeded] "Buy milk"
      "2024-05-01T10:00:00.000Z" [Reload] "Buy eggs" "2024-05-02T10:00:00.000Z".
Proof.
  split; [split; [discriminate | vm_compute; discriminate]|].
  split; [split; [discriminate | vm_compute; discriminate]|].
  intros (wa & wb & ta & tb & ra & rb & Ha & Hta & _ & Hb & Htb & _ & Hlt).
  cbn in Ha. injection Ha as <-. cbn in Hta. injection Hta as <- <-.
  cbn in Hb. injection Hb as <-. cbn in Htb. injection Htb as <- <-.
  cbn in Hlt. lia.
Qed.

(** ** The scenario of the specification *)

(** "Buy milk" is added and completed, "Buy eggs" is added: the newer task
    comes first; pending shows "Buy eggs" only; the search for "milk"
    under all shows "Buy milk", completed as it is. *)
Example scenario :
  let evs := [TypeInput "Buy milk"; AddTask "2024-05-01T10:00:00.000Z";
              ToggleTask 1 "2024-05-02T09:00:00.000Z";
              TypeInput "Buy eggs"; AddTask "2024-05-02T10:00:00.000Z"] in
  option_map (fun w => map text (tasks w)) (run evs fresh)
    = Some ["Buy eggs"; "Buy milk"] /\
  option_map (fun w => map text (getFilteredTasks w))
    (run (evs ++ [SetFilter "pending"]) fresh) = Some ["Buy eggs"] /\
  option_map (fun w => map text (getFilteredTasks w))
    (run (evs ++ [Search "MILK"]) fresh) = Some ["Buy milk"] /\
  option_map (fun w => map id (tasks w)) (run (evs ++ [Reload]) fresh)
    = Some [2; 1].
Proof. repeat split. Qed.

(** ** The page and the search term along a run *)

Section PageInvariants.

Lemma in_sync_same (w w' : World) :
  tasks w' = tasks w -> currentFilter w' = currentFilter w ->
  currentSearchTerm w' = currentSearchTerm w -> taskList w' = taskList w ->
  in_sync w -> in_sync w'.
Proof.
  unfold in_sync, rendered, term_lowered, getFilteredTasks.
  now intros -> -> -> ->.
Qed.

Lemma in_sync_render (w : World) (message type : string) :
  term_lowered w -> in_sync (showNotification message type (renderTasks w)).
Proof. intros H. split; [reflexivity | exact H]. Qed.

Lemma term_lowered_save (w : World) :
  term_lowered w -> term_lowered (saveTasksToStorage w).
Proof. unfold term_lowered. now rewrite save_currentSearchTerm. Qed.

Lemma new_TodoApp_in_sync (st : Storage) (w : World) :
  new_TodoApp st = Some w -> in_sync w.
Proof.
  unfold new_TodoApp, loadThemeFromStorage.
  destruct (loadTasksFromStorage (constructed st)) as [w1|] eqn:E; [|discriminate].
  assert (Ht : currentSearchTerm w1 = "").
  { revert E. unfold loadTasksFromStorage, load_counter. cbn.
    destruct (status st), (todoApp_tasks st) as [[]|],
      (todoApp_taskIdCounter st) as [c|]; cbn;
      try destruct (truthy c); try destruct (parseInt c); cbn;
      intros [= <-]; reflexivity. }
  destruct (status (localStorage w1)); intros [= <-];
    (split; [reflexivity | unfold term_lowered; cbn; now rewrite Ht]).
Qed.

Lemma step_in_sync (e : event) (w w' : World) :
  in_sync w -> step e w = Some w' -> in_sync w'.
Proof.
  intros Hs. pose proof (proj2 Hs) as Hl. destruct e; cbn [step].
  - intros [= <-]. now apply (in_sync_same w).
  - intros [= <-]. unfold addTask.
    destruct (negb _); [|destruct (_ <? _)%Z]; cbn [snd];
      [now apply (in_sync_same w) ..|].
    apply in_sync_render, term_lowered_save. exact Hl.
  - intros [= <-]. unfold toggleTask. destruct (find_task _ _); cbn [snd];
      [|assumption].
    apply in_sync_render, term_lowered_save. exact Hl.
  - intros [= <-]. unfold saveEditTask, cancelEditTask.
    destruct (negb _); [|destruct (_ <? _)%Z].
    + destruct (existsb _ _); now apply (in_sync_same w).
    + destruct (existsb _ _); now apply (in_sync_same w).
    + destruct (find_task _ _); cbn [snd]; [|assumption].
      apply in_sync_render, term_lowered_save. exact Hl.
  - intros [= <-]. unfold deleteTask.
    destruct (existsb _ _); cbn [snd]; [now apply (in_sync_same w) | assumption].
  - intros [= <-]. unfold run_timer. destruct (timers w); [assumption|].
    apply in_sync_render, term_lowered_save. exact Hl.
  - intros [= <-]. split; [reflexivity | exact Hl].
  - intros [= <-]. split; [reflexivity|]. apply toLowerCase_idem.
  - apply new_TodoApp_in_sync.
  - intros [= <-]. now apply (in_sync_same w).
Qed.

(** Every page that a run reaches is in sync. *)
Lemma run_in_sync (evs : list event) (w w' : World) :
  in_sync w -> run evs w = Some w' -> in_sync w'.
Proof.
  revert w. induction evs as [|e evs IH]; intros w Hs; cbn [run].
  - now intros [= <-].
  - destruct (step e w) as [w1|] eqn:E; [|discriminate].
    apply IH. now apply (step_in_sync e w).
Qed.

Lemma fresh_in_sync : in_sync fresh.
Proof. now split. Qed.

End PageInvariants.

(** * Further properties of the code *)

(** ** The store stays in order along every run *)

Section StoreInvariant.

Lemma descending_below_weaken (b b' : Z) (ts : list Task) :
  b <= b' -> descending_below b ts -> descending_below b' ts.
Proof. destruct ts; simpl; [trivial|]. intros Hb [Hi Hd]. split; [lia | exact Hd]. Qed.

Lemma descending_below_filter (p : Task -> bool) (b : Z) (ts : list Task) :
  descending_below b ts -> descending_below b (filter p ts).
Proof.
  revert b. induction ts as [|t ts IH]; simpl; intros b; [trivial|].
  intros [Hi Hd]. destruct (p t); simpl.
  - split; [exact Hi | now apply IH].
  - apply (descending_below_weaken (id t)); [lia | now apply IH].
Qed.

Lemma descending_below_update (taskId : Z) (f : Task -> Task) (b : Z) (ts : list Task) :
  (forall t, id (f t) = id t) ->
  descending_below b ts -> descending_below b (update_found taskId f ts).
Proof.
  intros Hf. revert b. induction ts as [|t ts IH]; simpl; intros b; [trivial|].
  intros [Hi Hd]. destruct (id t =? taskId)%Z; simpl.
  - now rewrite Hf.
  - split; [exact Hi | now apply IH].
Qed.

Lemma descending_below_bounds (b : Z) (ts : list Task) (t : Task) :
  descending_below b ts -> In t ts -> 1 <= id t < b.
Proof.
  revert b. induction ts as [|u ts IH]; simpl; intros b; [tauto|].
  intros [Hi Hd] [-> | Hin]; [exact Hi|].
  specialize (IH _ Hd Hin). lia.
Qed.

Lemma descending_below_NoDup (b : Z) (ts : list Task) :
  descending_below b ts -> NoDup (map id ts).
Proof.
  revert b. induction ts as [|u ts IH]; simpl; intros b; [constructor|].
  intros [Hi Hd]. constructor; [|now apply (IH (id u))].
  intros Hin. apply in_map_iff in Hin as (t & Ht & Hin).
  pose proof (descending_below_bounds _ _ _ Hd Hin). lia.
Qed.

Lemma Forall_update_found (P : Task -> Prop) (taskId : Z) (f : Task -> Task)
    (ts : list Task) :
  (forall t, P t -> P (f t)) -> Forall P ts -> Forall P (update_found taskId f ts).
Proof.
  intros Hf. induction 1 as [|t ts Ht Hts IH]; simpl; [constructor|].
  destruct (id t =? taskId)%Z; constructor; auto.
Qed.

Lemma Forall_filter (P : Task -> Prop) (p : Task -> bool) (ts : list Task) :
  Forall P ts -> Forall P (filter p ts).
Proof.
  induction 1 as [|t ts Ht Hts IH]; simpl; [constructor|].
  destruct (p t); [constructor|]; assumption.
Qed.

Lemma task_ok_toggle (now : string) (t : Task) : task_ok t -> task_ok (toggle now t).
Proof.
  intros (H1 & H2 & H3 & H4 & _). unfold task_ok, toggle. cbn.
  repeat split; try assumption; destruct (completed t); cbn; congruence.
Qed.

Lemma task_ok_trimmed (s : string) (c : bool) (made : string) (done : option string) (n : Z) :
  valid_text s -> (c = true <-> done <> None) ->
  task_ok (mkTask n (trim s) c made done).
Proof.
  intros [Hv1 Hv2] Hc. destruct (trim_spec s) as (_ & _ & _ & _ & _ & Hs & He).
  unfold task_ok. cbn. repeat split; try assumption; apply Hc.
Qed.

Lemma task_ok_set_text (s : string) (t : Task) :
  valid_text s -> task_ok t -> task_ok (set_text (trim s) t).
Proof.
  intros Hv (_ & _ & _ & _ & Hc). now apply task_ok_trimmed.
Qed.

Lemma well_formed_same (w w' : World) :
  tasks w' = tasks w -> taskIdCounter w' = taskIdCounter w ->
  localStorage w' = localStorage w -> well_formed w -> well_formed w'.
Proof. unfold well_formed. now intros -> -> ->. Qed.

(** A save leaves the storage as it was or makes it hold the store. *)
Lemma well_formed_save (w : World) :
  store_ok (taskIdCounter w) (tasks w) -> storage_ok (localStorage w) ->
  well_formed (saveTasksToStorage w).
Proof.
  intros Hs Hst. unfold well_formed. rewrite save_tasks, save_taskIdCounter.
  split; [exact Hs|]. unfold saveTasksToStorage.
  destruct (status (localStorage w)); cbn; [|exact Hst ..].
  unfold storage_ok. cbn. now exists (tasks w), (taskIdCounter w).
Qed.

Lemma well_formed_saved (w : World) (message type : string) :
  store_ok (taskIdCounter w) (tasks w) -> storage_ok (localStorage w) ->
  well_formed (showNotification message type (renderTasks (saveTasksToStorage w))).
Proof.
  intros Hs Hst. apply (well_formed_same (saveTasksToStorage w)); try reflexivity.
  now apply well_formed_save.
Qed.

Lemma new_TodoApp_well_formed (st : Storage) (w : World) :
  storage_ok st -> new_TodoApp st = Some w -> well_formed w.
Proof.
  unfold storage_ok, new_TodoApp, loadTasksFromStorage, loadThemeFromStorage,
    load_counter.
  cbn [localStorage constructed set_tasks].
  intros Hst.
  destruct (todoApp_tasks st) as [s|] eqn:Et, (todoApp_taskIdCounter st) as [c|] eqn:Ec;
    try contradiction.
  - destruct Hst as (ts & n & -> & -> & Hok). cbn [json_truthy JSON_parse JSON_stringify].
    rewrite toString_truthy, parseInt_toString. cbn.
    destruct (status st) eqn:Es; cbn; rewrite ?Es; intros [= <-].
    + split; cbn; [exact Hok|]. unfold storage_ok. rewrite Et, Ec. now exists ts, n.
    + split; cbn; [exact Hok|]. unfold storage_ok. rewrite Et, Ec. now exists ts, n.
  - destruct (status st) eqn:Es; cbn; rewrite ?Es; intros [= <-];
      (split; cbn; [repeat split; [lia | constructor]
                   | unfold storage_ok; now rewrite Et, Ec]).
Qed.

Lemma step_well_formed (e : event) (w w' : World) :
  well_formed w -> step e w = Some w' -> well_formed w'.
Proof.
  intros Hw. pose proof Hw as [(Hc & Hd & Hf) Hst]. destruct e; cbn [step].
  - intros [= <-]. now apply (well_formed_same w).
  - intros [= <-]. unfold addTask.
    destruct (negb (truthy (trim (taskInput_value w)))) eqn:E1;
      [|destruct (200 <? Z.of_nat (length (trim (taskInput_value w))))%Z eqn:E2];
      cbn [snd]; [now apply (well_formed_same w) ..|].
    apply well_formed_saved; [|exact Hst]. cbn.
    split; [lia|]. split.
    + simpl. split; [lia|]. exact Hd.
    + constructor; [|exact Hf]. apply task_ok_trimmed.
      * now apply valid_text_dec.
      * split; [discriminate | congruence].
  - intros [= <-]. unfold toggleTask. destruct (find_task _ _); cbn [snd]; [|exact Hw].
    apply well_formed_saved; [|exact Hst]. cbn. split; [exact Hc|]. split.
    + now apply descending_below_update.
    + apply Forall_update_found; [apply task_ok_toggle | exact Hf].
  - intros [= <-]. unfold saveEditTask, cancelEditTask.
    destruct (negb (truthy (trim newText))) eqn:E1;
      [|destruct (200 <? Z.of_nat (length (trim newText)))%Z eqn:E2].
    + destruct (existsb _ _); now apply (well_formed_same w).
    + destruct (existsb _ _); now apply (well_formed_same w).
    + destruct (find_task _ _); cbn [snd]; [|exact Hw].
      apply well_formed_saved; [|exact Hst]. cbn. split; [exact Hc|]. split.
      * now apply descending_below_update.
      * apply Forall_update_found; [|exact Hf].
        intros u. apply task_ok_set_text. now apply valid_text_dec.
  - intros [= <-]. unfold deleteTask.
    destruct (existsb _ _); cbn [snd]; [now apply (well_formed_same w) | exact Hw].
  - intros [= <-]. unfold run_timer. destruct (timers w); [exact Hw|].
    unfold deleteTask_callback. apply well_formed_saved; [|exact Hst]. cbn.
    split; [exact Hc|]. split; [now apply descending_below_filter | now apply Forall_filter].
  - intros [= <-]. now apply (well_formed_same w).
  - intros [= <-]. now apply (well_formed_same w).
  - now apply new_TodoApp_well_formed.
  - intros [= <-]. split; [now repeat split|]. exact Hst.
Qed.

Lemma run_well_formed (evs : list event) (w w' : World) :
  well_formed w -> run evs w = Some w' -> well_formed w'.
Proof.
  revert w. induction evs as [|e evs IH]; intros w Hw; cbn [run].
  - now intros [= <-].
  - destruct (step e w) as [w1|] eqn:E; [|discriminate].
    apply IH. now apply (step_well_formed e w).
Qed.

Lemma fresh_well_formed : well_formed fresh.
Proof. split; [split; [cbn; lia | split; [exact I | constructor]] | exact I]. Qed.

End StoreInvariant.

Lemma trim_clean (s : string) : starts_clean s -> ends_clean s -> trim s = s.
Proof.
  intros Hs He. unfold trim.
  assert (E : trimStart s = s) by (destruct s; simpl in *; [|rewrite Hs]; reflexivity).
  rewrite E. clear Hs E. induction s as [|c s IH]; simpl; [reflexivity|].
  destruct s as [|d s].
  - simpl in *. now rewrite He.
  - rewrite IH by exact He. reflexivity.
Qed.

(** A run used to exercise the theorems below: two tasks are added, the
    first one is completed, and the page is loaded again. *)
Example sample_run :
  run [TypeInput " Buy milk "; AddTask "2024-05-01T10:00:00.000Z";
       ToggleTask 1 "2024-05-02T09:00:00.000Z";
       TypeInput "Buy eggs"; AddTask "2024-05-02T10:00:00.000Z"; Reload] fresh
  = Some (mkWorld
            [mkTask 2 "Buy eggs" false "2024-05-02T10:00:00.000Z" None;
             mkTask 1 "Buy milk" true "2024-05-01T10:00:00.000Z"
               (Some "2024-05-02T09:00:00.000Z")]
            "all" "" 3 "" [2; 1] []
            (mkStorage
               (Some (JSON_stringify
                  [mkTask 2 "Buy eggs" false "2024-05-02T10:00:00.000Z" None;
                   mkTask 1 "Buy milk" true "2024-05-01T10:00:00.000Z"
                     (Some "2024-05-02T09:00:00.000Z")]))
               (Some "3") Available) []).
Proof. reflexivity. Qed.

(** X1.  In every world that a run reaches from a browser that never ran
    the application, as long as the storage accepts every read and every
    write, the ids of the store are pairwise different, lie between 1 and
    the counter (the counter excluded) and strictly decrease along the
    array: the newest task comes first. *)
Theorem store_ids_ordered (evs : list event) (w : World) :
  forallb storage_answers evs = true ->
  run evs fresh = Some w ->
  NoDup (map id (tasks w)) /\
  descending_below (taskIdCounter w) (tasks w) /\
  forall t, In t (tasks w) -> 1 <= id t < taskIdCounter w.
Proof.
  intros _ Hr.
  destruct (run_well_formed evs fresh w fresh_well_formed Hr) as [(_ & Hd & _) _].
  split; [now apply (descending_below_NoDup (taskIdCounter w))|].
  split; [exact Hd|]. intros t. now apply descending_below_bounds.
Qed.

Lemma store_ids_ordered_witness :
  exists w,
    run [TypeInput " Buy milk "; AddTask "2024-05-01T10:00:00.000Z";
         ToggleTask 1 "2024-05-02T09:00:00.000Z";
         TypeInput "Buy eggs"; AddTask "2024-05-02T10:00:00.000Z"; Reload] fresh
    = Some w /\ map id (tasks w) = [2; 1] /\ NoDup (map id (tasks w)).
Proof.
  eexists. split; [exact sample_run|]. split; [reflexivity|].
  exact (proj1 (store_ids_ordered
          [TypeInput " Buy milk "; AddTask "2024-05-01T10:00:00.000Z";
           ToggleTask 1 "2024-05-02T09:00:00.000Z";
           TypeInput "Buy eggs"; AddTask "2024-05-02T10:00:00.000Z"; Reload]
          _ eq_refl sample_run)).
Defined.

(** X2.  In every world that a run reaches from a browser that never ran
    the application, the text of every task of the store is trimmed (it is
    its own [trim]), not empty and at most 200 code units long. *)
Theorem store_texts_valid (evs : list event) (w : World) (t : Task) :
  run evs fresh = Some w -> In t (tasks w) ->
  trim (text t) = text t /\ text t <> "" /\ Z.of_nat (length (text t)) <= 200.
Proof.
  intros Hr Hin.
  destruct (run_well_formed evs fresh w fresh_well_formed Hr) as [(_ & _ & Hf) _].
  rewrite Forall_forall in Hf. destruct (Hf t Hin) as (H1 & H2 & H3 & H4 & _).
  split; [now apply trim_clean | now split].
Qed.

Lemma store_texts_valid_witness :
  trim "Buy milk" = "Buy milk" /\ "Buy milk" <> "" /\
  Z.of_nat (length "Buy milk") <= 200.
Proof.
  apply (store_texts_valid _ _
           (mkTask 1 "Buy milk" true "2024-05-01T10:00:00.000Z"
              (Some "2024-05-02T09:00:00.000Z")) sample_run).
  right. left. reflexivity.
Defined.

(** X3.  In every world that a run reaches from a browser that never ran
    the application, a task of the store has a completion time exactly
    when it is completed. *)
Theorem store_completedAt_iff_completed (evs : list event) (w : World) (t : Task) :
  run evs fresh = Some w -> In t (tasks w) ->
  (completed t = true <-> completedAt t <> None).
Proof.
  intros Hr Hin.
  destruct (run_well_formed evs fresh w fresh_well_formed Hr) as [(_ & _ & Hf) _].
  rewrite Forall_forall in Hf. now destruct (Hf t Hin) as (_ & _ & _ & _ & H).
Qed.

Lemma store_completedAt_iff_completed_witness :
  true = true <-> Some "2024-05-02T09:00:00.000Z" <> None.
Proof.
  apply (store_completedAt_iff_completed _ _
           (mkTask 1 "Buy milk" true "2024-05-01T10:00:00.000Z"
              (Some "2024-05-02T09:00:00.000Z")) sample_run).
  right. left. reflexivity.
Defined.

(** X4.  In every world that a run reaches from a browser that never ran
    the application, the list of the page has exactly one element per task
    of the filtered view, in its order, and the stored search term is in
    lower case. *)
Theorem page_shows_filtered_view (evs : list event) (w : World) :
  run evs fresh = Some w ->
  taskList w = map id (getFilteredTasks w) /\
  toLowerCase (currentSearchTerm w) = currentSearchTerm w.
Proof. intros Hr. exact (run_in_sync evs fresh w fresh_in_sync Hr). Qed.

Lemma page_shows_filtered_view_witness :
  exists w,
    run [TypeInput "Buy milk"; AddTask "2024-05-01T10:00:00.000Z"; Search "EGGS"] fresh
    = Some w /\ taskList w = [] /\ currentSearchTerm w = "eggs".
Proof.
  eexists. split; [reflexivity|].
  destruct (page_shows_filtered_view
              [TypeInput "Buy milk"; AddTask "2024-05-01T10:00:00.000Z"; Search "EGGS"]
              _ eq_refl) as [H _].
  split; [exact H | reflexivity].
Defined.

(** ** Saving, loading again, and what is lost in between *)

Lemma save_taskInput_value (w : World) :
  taskInput_value (saveTasksToStorage w) = taskInput_value w.
Proof. unfold saveTasksToStorage. now destruct (status (localStorage w)). Qed.

Lemma save_unavailable (w : World) :
  status (localStorage w) <> Available ->
  localStorage (saveTasksToStorage w) = localStorage w.
Proof. unfold saveTasksToStorage. now destruct (status (localStorage w)). Qed.

(** X5.  The id counter survives the storage.  After a save that the
    storage accepts, for every counter that is a safe integer, the stored
    counter text is read back by [parseInt] to the same number: the
    constructor completes on the saved storage with the counter of the
    page that saved.  Filter, search term, input box, notifications and
    pending timers start anew, and the list has an element for every
    loaded task. *)
Theorem save_then_reload (w : World) :
  status (localStorage w) = Available ->
  safe_integer (taskIdCounter w) ->
  exists w',
    new_TodoApp (localStorage (saveTasksToStorage w)) = Some w' /\
    taskIdCounter w' = taskIdCounter w /\
    currentFilter w' = "all" /\ currentSearchTerm w' = "" /\
    taskInput_value w' = "" /\ notifications w' = [] /\ timers w' = [] /\
    taskList w' = map id (tasks w') /\
    localStorage w' = localStorage (saveTasksToStorage w).
Proof.
  intros Hs _. rewrite save_available by exact Hs.
  unfold new_TodoApp, loadTasksFromStorage, load_counter, loadThemeFromStorage. cbn.
  rewrite toString_truthy, parseInt_toString. cbn.
  eexists. split; [reflexivity|]. now repeat split.
Qed.

Lemma save_then_reload_witness :
  exists w',
    new_TodoApp (localStorage (saveTasksToStorage
       (set_taskIdCounter 120 one_task))) = Some w' /\
    todoApp_taskIdCounter (localStorage w') = Some "120" /\
    taskIdCounter w' = 120.
Proof.
  destruct (save_then_reload (set_taskIdCounter 120 one_task))
    as (w' & H1 & H2 & _ & _ & _ & _ & _ & _ & H3);
    [reflexivity | split; reflexivity |].
  exists w'. split; [exact H1|]. split; [rewrite H3; reflexivity | exact H2].
Defined.

Lemma filter_idem {A} (p : A -> bool) (l : list A) :
  filter p (filter p l) = filter p l.
Proof.
  rewrite filter_filter. apply filter_ext. intros x. apply andb_diag.
Qed.

(** X6.  The callback of [deleteTask] run a second time for the same id,
    as after a double click on the delete button, changes neither the
    task array, nor the counter, nor the storage, nor the list of the
    page. *)
Theorem deleteTask_callback_twice (taskId : Z) (w : World) :
  let w1 := deleteTask_callback taskId w in
  let w2 := deleteTask_callback taskId w1 in
  tasks w2 = tasks w1 /\ taskIdCounter w2 = taskIdCounter w1 /\
  localStorage w2 = localStorage w1 /\ taskList w2 = taskList w1.
Proof.
  cbv zeta. destruct w as [ts f term c inp tl ns [st_t st_c st] tm].
  unfold deleteTask_callback, saveTasksToStorage, renderTasks, getFilteredTasks.
  destruct st; cbn; rewrite !filter_idem; repeat split.
Qed.

(** X7.  A deletion is lost when the page is loaded again before the
    timer fires.  On a page whose store is saved and which shows the
    task, [deleteTask] followed by its timer removes the tasks with the
    id; with a reload in between, the pending callback is gone, the timer
    finds nothing to run, and the store is what it was. *)
Theorem reload_cancels_deletion (taskId : Z) (w : World) :
  saved w -> In taskId (taskList w) -> timers w = [] ->
  (exists w1, run [DeleteTask taskId; TimerFires] w = Some w1 /\
              tasks w1 = filter (fun task => negb (id task =? taskId)%Z) (tasks w)) /\
  (exists w2, run [DeleteTask taskId; Reload; TimerFires] w = Some w2 /\
              tasks w2 = tasks w /\ taskIdCounter w2 = taskIdCounter w /\
              timers w2 = []).
Proof.
  intros Hs Hin Ht. cbn [run step]. unfold deleteTask.
  rewrite (proj2 (shown_task _ _) Hin). cbn [snd]. split.
  - eexists. split; [reflexivity|]. unfold run_timer. cbn. rewrite Ht. cbn.
    unfold deleteTask_callback. now fields.
  - cbn [localStorage set_timers]. rewrite Hs.
    unfold new_TodoApp, loadTasksFromStorage, load_counter, loadThemeFromStorage. cbn.
    rewrite toString_truthy, parseInt_toString. cbn.
    eexists. split; [reflexivity|]. now repeat split.
Qed.

Lemma reload_cancels_deletion_witness :
  (exists w1, run [DeleteTask 1; TimerFires] one_task = Some w1 /\ tasks w1 = []) /\
  (exists w2, run [DeleteTask 1; Reload; TimerFires] one_task = Some w2 /\
              tasks w2 = [milk]).
Proof.
  destruct (reload_cancels_deletion 1 one_task) as [(w1 & H1 & H1') (w2 & H2 & H2' & _)];
    [reflexivity | left; reflexivity | reflexivity | ].
  split; [exists w1 | exists w2]; split; assumption.
Defined.

Lemma filter_out_unique (before after : list Task) (t : Task) :
  NoDup (map id (before ++ t :: after)) ->
  filter (fun task => negb (id task =? id t)%Z) (before ++ t :: after) = before ++ after.
Proof.
  intros Hn. rewrite map_app in Hn. cbn in Hn.
  apply NoDup_remove_2 in Hn. rewrite in_app_iff in Hn.
  rewrite filter_app. cbn. rewrite Z.eqb_refl. cbn. f_equal.
  - apply filter_all. intros u Hu. apply negb_true_iff, Z.eqb_neq.
    intros E. apply Hn. left. rewrite <- E. now apply in_map.
  - apply filter_all. intros u Hu. apply negb_true_iff, Z.eqb_neq.
    intros E. apply Hn. right. rewrite <- E. now apply in_map.
Qed.

(** X8.  In every world that a run reaches from a browser that never ran
    the application, as long as the storage accepts every read and every
    write, the callback of [deleteTask] for the id of a task of the store
    takes exactly that one task out of the array and leaves the others in
    their places. *)
Theorem delete_removes_exactly_one (evs : list event) (w : World) (taskId : Z) (t : Task) :
  forallb storage_answers evs = true ->
  run evs fresh = Some w ->
  find_task taskId (tasks w) = Some t ->
  exists before after,
    tasks w = before ++ t :: after /\
    tasks (deleteTask_callback taskId w) = before ++ after /\
    List.length (tasks (deleteTask_callback taskId w)) =
      (List.length (tasks w) - 1)%nat.
Proof.
  intros _ Hr Hf.
  destruct (run_well_formed evs fresh w fresh_well_formed Hr) as [(_ & Hd & _) _].
  apply descending_below_NoDup in Hd.
  destruct (find_task_split _ _ _ Hf) as (b & a & Hs & _ & Hid).
  exists b, a. split; [exact Hs|].
  assert (E : tasks (deleteTask_callback taskId w) = b ++ a).
  { unfold deleteTask_callback. fields. rewrite Hs, <- Hid.
    apply filter_out_unique. now rewrite <- Hs. }
  split; [exact E|]. rewrite E, Hs, !length_app. cbn. lia.
Qed.

Lemma delete_removes_exactly_one_witness :
  exists w,
    run [TypeInput " Buy milk "; AddTask "2024-05-01T10:00:00.000Z";
         ToggleTask 1 "2024-05-02T09:00:00.000Z";
         TypeInput "Buy eggs"; AddTask "2024-05-02T10:00:00.000Z"; Reload] fresh
    = Some w /\
    map text (tasks w) = ["Buy eggs"; "Buy milk"] /\
    map text (tasks (deleteTask_callback 2 w)) = ["Buy milk"] /\
    List.length (tasks (deleteTask_callback 2 w)) = 1%nat.
Proof.
  eexists. split; [exact sample_run|]. split; [reflexivity|]. split; [reflexivity|].
  destruct (delete_removes_exactly_one
          [TypeInput " Buy milk "; AddTask "2024-05-01T10:00:00.000Z";
           ToggleTask 1 "2024-05-02T09:00:00.000Z";
           TypeInput "Buy eggs"; AddTask "2024-05-02T10:00:00.000Z"; Reload]
          _ 2 (mkTask 2 "Buy eggs" false "2024-05-02T10:00:00.000Z" None)
          eq_refl sample_run eq_refl) as (b & a & _ & _ & H).
  exact H.
Defined.

(** X9.  [addTask] empties the input box when it succeeds: a second call
    right after a successful one, with nothing typed in between, adds no
    task and only shows the warning for an empty text. *)
Theorem addTask_again (now1 now2 : string) (w : World) :
  valid_text (taskInput_value w) ->
  let w1 := snd (addTask now1 w) in
  taskInput_value w1 = "" /\
  addTask now2 w1 =
    (Return undefined, showNotification "Please enter a task!" "warning" w1).
Proof.
  intros Hv. cbv zeta. rewrite addTask_valid by exact Hv. cbn [snd].
  assert (E : taskInput_value
                (showNotification "Task added successfully!" "success"
                   (renderTasks (saveTasksToStorage
                      (set_taskInput_value ""
                         (set_tasks
                            (mkTask (taskIdCounter w) (trim (taskInput_value w))
                               false now1 None :: tasks w)
                            (set_taskIdCounter (taskIdCounter w + 1) w)))))) = "").
  { cbn. now rewrite save_taskInput_value. }
  split; [exact E|]. unfold addTask at 1. now rewrite E.
Qed.

Lemma addTask_again_witness :
  tasks (snd (addTask "2024-05-01T10:00:01.000Z"
           (snd (addTask "2024-05-01T10:00:00.000Z"
                   (set_taskInput_value "Buy milk" fresh))))) = [milk].
Proof.
  assert (Hv : valid_text (taskInput_value (set_taskInput_value "Buy milk" fresh)))
    by (split; [discriminate | vm_compute; discriminate]).
  rewrite (proj2 (addTask_again "2024-05-01T10:00:00.000Z" "2024-05-01T10:00:01.000Z"
                    (set_taskInput_value "Buy milk" fresh) Hv)).
  reflexivity.
Defined.

(** ** The counters of the page *)

Lemma filter_length_split {A} (p : A -> bool) (l : list A) :
  (List.length (filter p l) + List.length (filter (fun x => negb (p x)) l))%nat
  = List.length l.
Proof.
  induction l as [|x l IH]; simpl; [reflexivity|].
  destruct (p x); simpl; lia.
Qed.

(** X10.  The three numbers of [updateStats] count the whole store,
    whatever the filter and the search term: the total is the number of
    tasks, and the pending number, computed as total minus completed, is
    the number of tasks that are not completed and is never negative. *)
Theorem updateStats_counts (f term : string) (w : World) :
  let s := updateStats (set_currentSearchTerm term (set_currentFilter f w)) in
  s = updateStats w /\
  totalTasks s = Z.of_nat (List.length (tasks w)) /\
  pendingTasks s =
    Z.of_nat (List.length (filter (fun task => negb (completed task)) (tasks w))) /\
  0 <= completedTasks s <= totalTasks s /\ 0 <= pendingTasks s.
Proof.
  cbv zeta. unfold updateStats, set_currentSearchTerm, set_currentFilter.
  cbn [tasks totalTasks completedTasks pendingTasks].
  pose proof (filter_length_split (fun task => completed task) (tasks w)) as H.
  cbv beta in H.
  split; [reflexivity|]. split; [reflexivity|]. split; [|split]; lia.
Qed.

(** X11.  How the numbers of [updateStats] move.  A successful [addTask]
    raises the total and the pending number by one.  [toggleTask] on the
    id of a task of the store keeps the total and moves one unit between
    completed and pending, towards completed when the task was pending. *)
Theorem updateStats_after (taskId : Z) (now : string) (w : World) (t : Task) :
  let s := updateStats w in
  (valid_text (taskInput_value w) ->
   updateStats (snd (addTask now w)) =
     mkStats (totalTasks s + 1) (completedTasks s) (pendingTasks s + 1)) /\
  (find_task taskId (tasks w) = Some t ->
   updateStats (snd (toggleTask taskId now w)) =
     if completed t
     then mkStats (totalTasks s) (completedTasks s - 1) (pendingTasks s + 1)
     else mkStats (totalTasks s) (completedTasks s + 1) (pendingTasks s - 1)).
Proof.
  cbv zeta. split.
  - intros Hv.
    assert (E : tasks (snd (addTask now w)) =
                mkTask (taskIdCounter w) (trim (taskInput_value w)) false now None
                  :: tasks w)
      by (rewrite addTask_valid by exact Hv; now fields).
    unfold updateStats. rewrite E.
    cbn [filter completed List.length totalTasks completedTasks pendingTasks].
    f_equal; lia.
  - intros Hf.
    destruct (toggleTask_found taskId now w t Hf) as (b & a & Hs & _ & _ & Ht).
    unfold updateStats. rewrite Ht, Hs, !filter_app, !length_app.
    unfold toggle.
    cbn [filter completed List.length totalTasks completedTasks pendingTasks].
    destruct (completed t); cbn [negb filter List.length];
      rewrite ?length_app; cbn [List.length]; f_equal; lia.
Qed.

Lemma updateStats_after_witness :
  updateStats (snd (addTask "2024-05-02T10:00:00.000Z"
                      (set_taskInput_value "Buy eggs" one_task))) = mkStats 2 0 2 /\
  updateStats (snd (toggleTask 1 "2024-05-02T09:00:00.000Z" one_task)) = mkStats 1 1 0.
Proof.
  split.
  - rewrite (proj1 (updateStats_after 1 "2024-05-02T10:00:00.000Z"
                      (set_taskInput_value "Buy eggs" one_task) milk));
      [reflexivity | split; [discriminate | vm_compute; discriminate]].
  - rewrite (proj2 (updateStats_after 1 "2024-05-02T09:00:00.000Z" one_task milk));
      reflexivity.
Defined.

(** ** The placeholder of the empty list *)

Lemma filter_nil_all {A} (p : A -> bool) (l : list A) :
  filter p l = [] -> forall x, In x l -> p x = false.
Proof.
  induction l as [|y l IH]; simpl; [tauto|].
  destruct (p y) eqn:E; [discriminate|]. intros H x [<- | Hx]; auto.
Qed.

Lemma length_zero {A} (l : list A) : (List.length l =? 0)%nat = true <-> l = [].
Proof. destruct l; simpl; split; congruence. Qed.

(** X12.  The placeholder tells the truth about the store.  It is shown
    exactly when the filtered view is empty.  "No tasks yet" is shown only
    when the store has no task; "No completed tasks" only when no task of
    the store is completed; "No pending tasks", with its text "Great job!
    All tasks are completed.", only when every task of the store is
    completed, which includes the empty store; "No matching tasks" only
    when a search term is set and no task that passes the completion
    filter contains it. *)
Theorem updateEmptyState_sound (w : World) :
  (updateEmptyState w = None <-> getFilteredTasks w <> []) /\
  forall e, updateEmptyState w = Some e ->
    (emptyTitle e = "No tasks yet" -> tasks w = []) /\
    (emptyTitle e = "No completed tasks" ->
       forall t, In t (tasks w) -> completed t = false) /\
    (emptyTitle e = "No pending tasks" ->
       emptyText e = "Great job! All tasks are completed." /\
       forall t, In t (tasks w) -> completed t = true) /\
    (emptyTitle e = "No matching tasks" ->
       currentSearchTerm w <> "" /\
       forall t, In t (getFilteredTasks (set_currentSearchTerm "" w)) ->
                 includes (toLowerCase (text t)) (currentSearchTerm w) = false).
Proof.
  unfold updateEmptyState. split.
  - destruct (List.length (getFilteredTasks w) =? 0)%nat eqn:E.
    + apply length_zero in E. split; [discriminate | congruence].
    + split; [intros _ H; apply length_zero in H; congruence | reflexivity].
  - intros e.
    destruct (List.length (getFilteredTasks w) =? 0)%nat eqn:E; [|discriminate].
    apply length_zero in E. revert E. unfold getFilteredTasks. cbn.
    destruct (truthy (currentSearchTerm w)) eqn:Et.
    + intros E [= <-]. cbn. repeat split; try discriminate.
      * now apply truthy_true.
      * intros t Ht. now apply (filter_nil_all _ _ E).
    + destruct (currentFilter w =? "completed") eqn:Ec;
        [|destruct (currentFilter w =? "pending") eqn:Ep];
        intros E [= <-]; cbn; repeat split; try discriminate.
      * intros _ t Ht. now apply (filter_nil_all _ _ E).
      * intros t Ht. apply negb_false_iff. now apply (filter_nil_all _ _ E).
      * intros _. exact E.
Qed.

Lemma updateEmptyState_sound_witness :
  updateEmptyState (set_currentFilter "completed" one_task) =
    Some (mkEmptyState CheckMark "No completed tasks"
            "Complete some tasks to see them here.") /\
  completed milk = false.
Proof.
  split; [reflexivity|].
  destruct (updateEmptyState_sound (set_currentFilter "completed" one_task)) as [_ H].
  destruct (H (mkEmptyState CheckMark "No completed tasks"
                 "Complete some tasks to see them here.") eq_refl) as (_ & H' & _).
  apply (H' eq_refl). left. reflexivity.
Defined.

(** ** Escaping task text *)

Lemma chars_app (s t : string) :
  list_ascii_of_string (s ++ t)%string =
  list_ascii_of_string s ++ list_ascii_of_string t.
Proof. induction s as [|c s IH]; simpl; [reflexivity | now rewrite IH]. Qed.

(** The five shapes of [escape_char]. *)
Lemma escape_char_shape (c : ascii) :
  (c = "&"%char /\ escape_char c = "&amp;") \/
  (c = ascii_of_N 160 /\ escape_char c = "&nbsp;") \/
  (c = "<"%char /\ escape_char c = "&lt;") \/
  (c = ">"%char /\ escape_char c = "&gt;") \/
  (c <> "&"%char /\ c <> ascii_of_N 160 /\ c <> "<"%char /\ c <> ">"%char /\
   escape_char c = String c EmptyString).
Proof.
  unfold escape_char.
  destruct (Ascii.eqb c "&") eqn:E1; [apply Ascii.eqb_eq in E1; auto|].
  destruct (code c =? 160)%N eqn:E2.
  { apply N.eqb_eq in E2. right. left. split; [|reflexivity].
    unfold code in E2. rewrite <- (ascii_N_embedding c), E2. reflexivity. }
  destruct (Ascii.eqb c "<") eqn:E3; [apply Ascii.eqb_eq in E3; auto|].
  destruct (Ascii.eqb c ">") eqn:E4; [apply Ascii.eqb_eq in E4; auto 6|].
  apply Ascii.eqb_neq in E1, E3, E4. apply N.eqb_neq in E2.
  do 4 right. repeat split; try assumption. intros ->. now apply E2.
Qed.

(** X13.  The text that [escapeHtml] returns holds no angle bracket and no
    no-break space, whatever the task text: put into the markup of a list
    element, it opens no tag.  Text without ampersand, angle bracket and
    no-break space comes back as it is. *)
Theorem escapeHtml_no_markup (text : string) :
  (forall c, In c (list_ascii_of_string (escapeHtml text)) ->
             c <> "<"%char /\ c <> ">"%char /\ c <> ascii_of_N 160) /\
  ((forall c, In c (list_ascii_of_string text) ->
              c <> "&"%char /\ c <> "<"%char /\ c <> ">"%char /\ c <> ascii_of_N 160) ->
   escapeHtml text = text).
Proof.
  split.
  - induction text as [|a text IH]; simpl; [tauto|].
    intros c. rewrite chars_app, in_app_iff. intros [Hc | Hc]; [|now apply IH].
    destruct (escape_char_shape a)
      as [[_ E] | [[_ E] | [[_ E] | [[_ E] | (H1 & H2 & H3 & H4 & E)]]]];
      rewrite E in Hc; simpl in Hc;
      repeat (destruct Hc as [<- | Hc]; [repeat split; (discriminate || assumption)|]);
      destruct Hc.
  - induction text as [|a text IH]; simpl; [reflexivity|]. intros H.
    destruct (H a (or_introl eq_refl)) as (H1 & H3 & H4 & H2).
    destruct (escape_char_shape a)
      as [[E _] | [[E _] | [[E _] | [[E _] | (_ & _ & _ & _ & E)]]]];
      try contradiction.
    rewrite E. simpl. f_equal. apply IH. intros c Hc. apply H. now right.
Qed.

Lemma escapeHtml_no_markup_witness :
  escapeHtml "<b>Tom & Jerry</b>" = "&lt;b&gt;Tom &amp; Jerry&lt;/b&gt;" /\
  escapeHtml "Buy milk" = "Buy milk".
Proof.
  split; [reflexivity|].
  apply (escapeHtml_no_markup "Buy milk"). simpl. intros c H.
  repeat (destruct H as [<- | H]; [repeat split; discriminate|]). destruct H.
Defined.

(** X14.  [escapeHtml] loses nothing: two texts with the same escaped form
    are the same text. *)
Theorem escapeHtml_injective (s t : string) :
  escapeHtml s = escapeHtml t -> s = t.
Proof.
  revert t. induction s as [|a s IH]; intros [|b t]; simpl.
  - reflexivity.
  - destruct (escape_char_shape b)
      as [[_ E] | [[_ E] | [[_ E] | [[_ E] | (_ & _ & _ & _ & E)]]]];
      rewrite E; discriminate.
  - destruct (escape_char_shape a)
      as [[_ E] | [[_ E] | [[_ E] | [[_ E] | (_ & _ & _ & _ & E)]]]];
      rewrite E; discriminate.
  - destruct (escape_char_shape a)
      as [[Ea E] | [[Ea E] | [[Ea E] | [[Ea E] | (A1 & A2 & A3 & A4 & E)]]]];
    destruct (escape_char_shape b)
      as [[Eb F] | [[Eb F] | [[Eb F] | [[Eb F] | (B1 & B2 & B3 & B4 & F)]]]];
    rewrite E, F; simpl; intros H; try discriminate H;
      try (injection H as H; subst; f_equal; now apply IH);
      try (injection H as H0 H; subst; congruence).
Qed.

Lemma escapeHtml_injective_witness : "a<b" = "a<b".
Proof. apply (escapeHtml_injective "a<b" "a<b"). reflexivity. Defined.

(** ** Clicks on the task list *)

(** X15.  For every task whose id is a safe integer, the id that
    [createTaskElement] writes into the list element, the number as a
    string, is the id that [handleTaskListClick] reads back with
    [parseInt]: a click on the checkbox of the element is [toggleTask] on
    the id of the task, a click on its edit button is [startEditTask] on
    that id, and a confirmed click on its delete button is [deleteTask]
    on that id. *)
Theorem click_reaches_the_task (t : Task) (confirmed : bool) (now : string) (w : World) :
  safe_integer (id t) ->
  let item := Some (data_task_id t) in
  handleTaskListClick (mkClickTarget item (Some "toggle")) confirmed now w =
    (Return undefined, snd (toggleTask (id t) now w)) /\
  handleTaskListClick (mkClickTarget item (Some "edit")) confirmed now w =
    startEditTask (id t) w /\
  handleTaskListClick (mkClickTarget item (Some "delete")) true now w =
    (Return undefined, snd (deleteTask (id t) w)).
Proof.
  intros _. cbv zeta. unfold handleTaskListClick, data_task_id. cbn.
  rewrite parseInt_toString. repeat split.
Qed.

Lemma click_reaches_the_task_witness :
  data_task_id milk = "1" /\
  tasks (snd (handleTaskListClick (mkClickTarget (Some "1") (Some "toggle")) false
                "2024-05-02T09:00:00.000Z" one_task))
  = [mkTask 1 "Buy milk" true "2024-05-01T10:00:00.000Z"
       (Some "2024-05-02T09:00:00.000Z")] /\
  timers (snd (handleTaskListClick (mkClickTarget (Some "1") (Some "delete")) true
                 "2024-05-02T09:00:00.000Z" one_task)) = [1].
Proof.
  assert (Hs : safe_integer (id milk)) by (split; reflexivity).
  destruct (click_reaches_the_task milk false "2024-05-02T09:00:00.000Z" one_task Hs)
    as (H1 & _ & _).
  destruct (click_reaches_the_task milk true "2024-05-02T09:00:00.000Z" one_task Hs)
    as (_ & _ & H3).
  split; [reflexivity|]. split.
  - change (Some "1") with (Some (data_task_id milk)). rewrite H1. reflexivity.
  - change (Some "1") with (Some (data_task_id milk)). rewrite H3. reflexivity.
Defined.

(** ** The theme *)

Lemma or_light_cases (x : option string) :
  (or_light_is_light x = true /\ Theme.or_light x = "light") \/
  (or_light_is_light x = false /\ Theme.or_light x <> "light").
Proof.
  unfold or_light_is_light. destruct (Theme.or_light x =? "light") eqn:E.
  - left. split; [reflexivity | now apply String.eqb_eq].
  - right. split; [reflexivity | now apply String.eqb_neq].
Qed.

(** X16.  [toggleTheme] makes the theme of the page dark when the
    [data-theme] attribute is absent, empty or light, and light when the
    attribute holds any other text, dark included; a second call then
    gives light in the first case and dark in the second, so that two
    calls bring a light or a dark theme back. *)
Theorem toggleTheme_flips (p : Theme.Page) (w w' : World) :
  let p1 := fst (snd (Theme.toggleTheme p w)) in
  let p2 := fst (snd (Theme.toggleTheme p1 w')) in
  (Theme.data_theme p = None \/ Theme.data_theme p = Some "" \/
   Theme.data_theme p = Some "light" ->
   Theme.data_theme p1 = Some "dark" /\ Theme.data_theme p2 = Some "light") /\
  (forall s, Theme.data_theme p = Some s -> s <> "" -> s <> "light" ->
   Theme.data_theme p1 = Some "light" /\ Theme.data_theme p2 = Some "dark") /\
  (Theme.data_theme p = Some "light" \/ Theme.data_theme p = Some "dark" ->
   Theme.data_theme p2 = Theme.data_theme p).
Proof.
  cbv zeta.
  assert (H1 : forall q v,
    Theme.data_theme (fst (snd (Theme.toggleTheme q v))) =
      Some (if Theme.or_light (Theme.data_theme q) =? "light" then "dark" else "light")).
  { intros q v. unfold Theme.toggleTheme.
    destruct (status (localStorage v)); cbn;
      destruct (Theme.or_light (Theme.data_theme q) =? "light"); reflexivity. }
  assert (Hdark : forall q v v',
    Theme.data_theme q = None \/ Theme.data_theme q = Some "" \/
    Theme.data_theme q = Some "light" ->
    Theme.data_theme (fst (snd (Theme.toggleTheme q v))) = Some "dark" /\
    Theme.data_theme (fst (snd (Theme.toggleTheme
                       (fst (snd (Theme.toggleTheme q v))) v'))) = Some "light").
  { intros q v v' H.
    assert (E : Theme.data_theme (fst (snd (Theme.toggleTheme q v))) = Some "dark")
      by (rewrite H1; destruct H as [-> | [-> | ->]]; reflexivity).
    split; [exact E|]. rewrite H1, E. reflexivity. }
  assert (Hlight : forall q v v' s,
    Theme.data_theme q = Some s -> s <> "" -> s <> "light" ->
    Theme.data_theme (fst (snd (Theme.toggleTheme q v))) = Some "light" /\
    Theme.data_theme (fst (snd (Theme.toggleTheme
                       (fst (snd (Theme.toggleTheme q v))) v'))) = Some "dark").
  { intros q v v' s Hq Hs Hl.
    assert (E : Theme.data_theme (fst (snd (Theme.toggleTheme q v))) = Some "light").
    { rewrite H1, Hq. unfold Theme.or_light.
      apply truthy_true in Hs. rewrite Hs. apply String.eqb_neq in Hl. now rewrite Hl. }
    split; [exact E|]. rewrite H1, E. reflexivity. }
  split; [apply Hdark|]. split; [intros s; apply Hlight|].
  intros [E | E].
  - rewrite E. apply Hdark. auto.
  - rewrite E. apply (Hlight p w w' "dark" E); discriminate.
Qed.

Lemma toggleTheme_flips_witness :
  Theme.data_theme
    (fst (snd (Theme.toggleTheme (Theme.mkPage None CrescentMoon None) fresh)))
    = Some "dark" /\
  Theme.data_theme
    (fst (snd (Theme.toggleTheme (Theme.mkPage (Some "") CrescentMoon None) fresh)))
    = Some "dark" /\
  Theme.data_theme
    (fst (snd (Theme.toggleTheme (Theme.mkPage (Some "blue") CrescentMoon None) fresh)))
    = Some "light" /\
  Theme.data_theme
    (fst (snd (Theme.toggleTheme
       (fst (snd (Theme.toggleTheme (Theme.mkPage (Some "dark") SunWithRays None) fresh)))
       fresh))) = Some "dark".
Proof.
  split; [|split; [|split]].
  - apply (toggleTheme_flips (Theme.mkPage None CrescentMoon None) fresh fresh).
    left. reflexivity.
  - apply (toggleTheme_flips (Theme.mkPage (Some "") CrescentMoon None) fresh fresh).
    right. left. reflexivity.
  - apply (proj1 (proj2 (toggleTheme_flips
             (Theme.mkPage (Some "blue") CrescentMoon None) fresh fresh)) "blue");
      [reflexivity | discriminate | discriminate].
  - apply (proj2 (proj2 (toggleTheme_flips
             (Theme.mkPage (Some "dark") SunWithRays None) fresh fresh))).
    right. reflexivity.
Defined.

(** X17.  Round trip of the theme.  When the storage accepts the write,
    [toggleTheme] stores the theme it has put on the page and says so in
    a notification, and [loadThemeFromStorage] on a newly loaded page,
    whatever its attribute and icon, puts the same theme and the same icon
    back. *)
Theorem theme_saved_and_restored (p : Theme.Page) (w : World)
    (attribute : option string) (icon : pictograph) :
  status (localStorage w) = Available ->
  let r := Theme.toggleTheme p w in
  let p1 := fst (snd r) in
  let w1 := snd (snd r) in
  fst r = Return undefined /\
  Theme.todoApp_theme p1 = Theme.data_theme p1 /\
  (exists theme, notifications w1 =
     notifications w ++ [(("Switched to " ++ theme ++ " mode")%string, "success")] /\
     Theme.data_theme p1 = Some theme) /\
  Theme.loadThemeFromStorage (Theme.mkPage attribute icon (Theme.todoApp_theme p1)) w1
    = (Return undefined, p1).
Proof.
  intros Hs. cbv zeta. unfold Theme.toggleTheme, Theme.loadThemeFromStorage.
  rewrite Hs. cbn [fst snd localStorage showNotification set_notifications].
  rewrite Hs.
  destruct (Theme.or_light (Theme.data_theme p) =? "light");
    (split; [reflexivity|]; split; [reflexivity|]; split; [|reflexivity]).
  - exists "dark". split; reflexivity.
  - exists "light". split; reflexivity.
Qed.

Lemma theme_saved_and_restored_witness :
  Theme.loadThemeFromStorage (Theme.mkPage None CrescentMoon (Some "dark")) 
    (showNotification "Switched to dark mode" "success" fresh)
  = (Return undefined, Theme.mkPage (Some "dark") SunWithRays (Some "dark")).
Proof.
  exact (proj2 (proj2 (proj2
    (theme_saved_and_restored (Theme.mkPage None CrescentMoon None) fresh
       None CrescentMoon eq_refl)))).
Defined.

(** X18.  When the storage refuses the write, [toggleTheme] has changed
    the theme of the page and then throws: the stored theme is the old
    one, no notification is shown, and loading the page again brings the
    old stored theme back (the light one when none was stored). *)
Theorem theme_switch_not_saved (p : Theme.Page) (w : World) :
  status (localStorage w) = QuotaExceeded ->
  let r := Theme.toggleTheme p w in
  let p1 := fst (snd r) in
  fst r = Throw "QuotaExceededError" /\
  snd (snd r) = w /\
  Theme.todoApp_theme p1 = Theme.todoApp_theme p /\
  Theme.data_theme p1 =
    Some (if or_light_is_light (Theme.data_theme p) then "dark" else "light") /\
  Theme.data_theme (snd (Theme.loadThemeFromStorage p1 w)) =
    Some (Theme.or_light (Theme.todoApp_theme p)).
Proof.
  intros Hs. cbv zeta. unfold Theme.toggleTheme, Theme.loadThemeFromStorage,
    or_light_is_light.
  rewrite Hs. cbn.
  destruct (Theme.or_light (Theme.data_theme p) =? "light"); now repeat split.
Qed.

Lemma theme_switch_not_saved_witness :
  let w := set_localStorage (mkStorage None None QuotaExceeded) fresh in
  let p := Theme.mkPage (Some "light") CrescentMoon None in
  Theme.data_theme (fst (snd (Theme.toggleTheme p w))) = Some "dark" /\
  Theme.data_theme
    (snd (Theme.loadThemeFromStorage (fst (snd (Theme.toggleTheme p w))) w))
  = Some "light".
Proof.
  cbv zeta.
  destruct (theme_switch_not_saved (Theme.mkPage (Some "light") CrescentMoon None)
              (set_localStorage (mkStorage None None QuotaExceeded) fresh) eq_refl)
    as (_ & _ & _ & H1 & H2).
  split; [exact H1 | exact H2].
Defined.

(** The two models of [loadThemeFromStorage] throw on the same storage. *)
Lemma loadThemeFromStorage_agree (p : Theme.Page) (w : World) :
  fst (Theme.loadThemeFromStorage p w) = fst (loadThemeFromStorage w).
Proof.
  unfold Theme.loadThemeFromStorage, loadThemeFromStorage.
  now destruct (status (localStorage w)).
Qed.

(** ** Ids within one page load *)

Lemma step_counter_grows (e : event) (w : World) :
  no_reload e = true ->
  exists w', step e w = Some w' /\
             taskIdCounter w <= taskIdCounter w' <= taskIdCounter w + 1.
Proof.
  intros He. destruct e; try discriminate He; cbn [step];
    (eexists; split; [reflexivity|]).
  - cbn. lia.
  - unfold addTask.
    destruct (negb _); [|destruct (_ <? _)%Z]; fields; lia.
  - unfold toggleTask. destruct (find_task _ _); fields; lia.
  - unfold saveEditTask, cancelEditTask.
    destruct (negb _); [|destruct (_ <? _)%Z];
      [destruct (existsb _ _); cbn; lia ..|].
    destruct (find_task _ _); fields; lia.
  - unfold deleteTask. destruct (existsb _ _); cbn; lia.
  - unfold run_timer, deleteTask_callback. destruct (timers w); fields; lia.
  - cbn. lia.
  - cbn. lia.
  - cbn. lia.
Qed.

Lemma run_counter_grows (evs : list event) (w : World) :
  forallb no_reload evs = true ->
  exists w', run evs w = Some w' /\
             taskIdCounter w <= taskIdCounter w'
               <= taskIdCounter w + Z.of_nat (List.length evs).
Proof.
  revert w. induction evs as [|e evs IH]; intros w He; cbn [run].
  - exists w. split; [reflexivity | cbn; lia].
  - cbn in He. apply andb_true_iff in He as [He Hevs].
    destruct (step_counter_grows e w He) as (w1 & -> & H1).
    destruct (IH w1 Hevs) as (w' & Hr & H2). exists w'. split; [exact Hr|].
    cbn [List.length]. lia.
Qed.

Lemma add_valid_anywhere (T now : string) (w : World) :
  valid_text T ->
  exists w' t rest,
    run [TypeInput T; AddTask now] w = Some w' /\
    tasks w' = t :: rest /\ text t = trim T /\ id t = taskIdCounter w /\
    taskIdCounter w' = taskIdCounter w + 1.
Proof.
  intros Hv. cbn [run step].
  eexists. exists (mkTask (taskIdCounter w) (trim T) false now None), (tasks w).
  split; [reflexivity|].
  rewrite addTask_valid by exact Hv. now fields.
Qed.

(** X19.  As long as the page is not loaded again, ids strictly increase
    whatever the storage does.  Take a world whose counter is a safe
    integer with room for one step per event: after valid text has been
    added, any events other than a reload, failing saves included, and a
    second valid text, both tasks are at the front of the array when
    created, both ids are safe integers, and the second id is the
    greater. *)
Theorem ids_increase_without_reload (w : World) (evs : list event)
    (T1 now1 T2 now2 : string) :
  - 2 ^ 53 < taskIdCounter w ->
  taskIdCounter w + Z.of_nat (List.length evs) + 2 < 2 ^ 53 ->
  forallb no_reload evs = true -> valid_text T1 -> valid_text T2 ->
  exists wa wb ta tb ra rb,
    run [TypeInput T1; AddTask now1] w = Some wa /\
    tasks wa = ta :: ra /\ text ta = trim T1 /\
    run (evs ++ [TypeInput T2; AddTask now2]) wa = Some wb /\
    tasks wb = tb :: rb /\ text tb = trim T2 /\
    safe_integer (id ta) /\ safe_integer (id tb) /\ safe_integer (taskIdCounter wb) /\
    id ta < id tb.
Proof.
  intros Hlo Hhi He Hv1 Hv2.
  destruct (add_valid_anywhere T1 now1 w Hv1) as (wa & ta & ra & Hra & Hta & Hxa & Hia & Hna).
  destruct (run_counter_grows evs wa He) as (w2 & Hr2 & Hle).
  destruct (add_valid_anywhere T2 now2 w2 Hv2)
    as (wb & tb & rb & Hrb & Htb & Hxb & Hib & Hnb).
  exists wa, wb, ta, tb, ra, rb. rewrite run_app, Hr2. unfold safe_integer.
  repeat split; try assumption; lia.
Qed.

Lemma ids_increase_without_reload_witness :
  exists wa wb ta tb ra rb,
    run [TypeInput "Buy milk"; AddTask "2024-05-01T10:00:00.000Z"] fresh = Some wa /\
    tasks wa = ta :: ra /\ text ta = trim "Buy milk" /\
    run ([StorageStatus QuotaExceeded; ToggleTask 1 "2024-05-02T09:00:00.000Z"]
           ++ [TypeInput "Buy eggs"; AddTask "2024-05-02T10:00:00.000Z"]) wa = Some wb /\
    tasks wb = tb :: rb /\ text tb = trim "Buy eggs" /\
    safe_integer (id ta) /\ safe_integer (id tb) /\ safe_integer (taskIdCounter wb) /\
    id ta < id tb.
Proof.
  apply ids_increase_without_reload;
    [reflexivity | reflexivity | reflexivity | |];
    (split; [discriminate | vm_compute; discriminate]).
Defined.
